(** * cinderx/Jit/elf.cpp: the ELF object writer of the Cinder JIT

    A shallow embedding of [jit::elf::writeEntries] and of the helpers of
    [elf.cpp], followed by the properties of the layout it computes and of
    the byte stream it emits.

    Conventions.
    - A [uintN_t] value is a [Z]; every C++ operation that can leave the
      range is followed by its wrap-around ([wrap64], [wrap32]).
    - Bytes are [Byte.byte]; a struct written through [reinterpret_cast] is
      the little-endian image of its fields, in declaration order.
    - [JIT_CHECK] aborts the process: a function that contains one returns a
      [result], and [Abort] carries the message of the failed check.
    - [std::array] members indexed by an enumeration are lists updated with
      stdpp's [<[i := x]>] and read with [!!!]. *)

From Stdlib Require Import ZArith List Strings.String Strings.Byte Lia Sorted.
From stdpp Require Import base list.
Import ListNotations.
Local Open Scope Z_scope.

(** ** Machine integers and bytes *)

Definition wrap64 (z : Z) : Z := z mod 2 ^ 64.
Definition wrap32 (z : Z) : Z := z mod 2 ^ 32.

Definition byte_of_Z (z : Z) : byte :=
  match Byte.of_N (Z.to_N (z mod 256)) with
  | Some b => b
  | None => x00
  end.

(** The [n] low bytes of [z], least significant first. *)
Fixpoint le_bytes (n : nat) (z : Z) : list byte :=
  match n with
  | O => []
  | S n' => byte_of_Z z :: le_bytes n' (Z.shiftr z 8)
  end.

Definition zeros (n : nat) : list byte := replicate n x00.

(** ** Fatal errors: [JIT_CHECK] *)

(** The messages of the checks of [elf.cpp], one constructor per
    [JIT_CHECK], with the arguments the message is formatted with. *)
Inductive FatalError : Type :=
| TextUnaligned (section_offset : Z)
| DynsymUnaligned (section_offset : Z)
| SectionOrder
| HeadersTooBig (section_offset : Z)
| WriteFailed (size : Z).

(** The two kinds of fatal error the design distinguishes. *)
Inductive ErrorKind : Type := StructuralInvariantViolation | IoFailure.

Definition kind_of (e : FatalError) : ErrorKind :=
  match e with
  | WriteFailed _ => IoFailure
  | _ => StructuralInvariantViolation
  end.

Inductive result (A : Type) : Type :=
| Ok (a : A)
| Abort (e : FatalError).
Arguments Ok {A} a.
Arguments Abort {A} e.

Definition bind {A B : Type} (m : result A) (k : A -> result B) : result B :=
  match m with
  | Ok a => k a
  | Abort e => Abort e
  end.

Notation "'do' x <- m ; k" := (bind m (fun x => k))
  (at level 10, x name, m at level 100, k at level 200).
Notation "'do' ' p <- m ; k" := (bind m (fun x => match x with p => k end))
  (at level 10, p pattern, m at level 100, k at level 200).
Notation "'check' m ; k" := (bind m (fun _ : unit => k))
  (at level 10, m at level 100, k at level 200).

(** Modelled from the spec: the macro [JIT_CHECK(cond, fmt, args...)] of
    [cinderx/Common/log.h].  A failed check is fatal: the operation stops
    there with the message, and nothing after it runs. *)
Definition JIT_CHECK (cond : bool) (e : FatalError) : result unit :=
  if cond then Ok tt else Abort e.

(** ** The records of [elf.h]

    [cinderx/Jit/elf.h] is not part of the sources.  The field lists are
    those of the data model of the spec, completed to the ELF-64 layouts
    that the size assertions at the top of [elf.cpp] fix (64 and 56 bytes);
    every field defaults to zero, so that the Null section and the null
    symbol are all-zero. *)

Module SectionHeader.
(** Modelled from the spec: [struct SectionHeader] of [elf.h], a
    fixed-layout record of 64 bytes. *)
Record t : Type := mk {
  name_offset : Z;  (* uint32_t *)
  type : Z;         (* uint32_t *)
  flags : Z;        (* uint64_t *)
  address : Z;      (* uint64_t *)
  offset : Z;       (* uint64_t *)
  size : Z;         (* uint64_t *)
  link : Z;         (* uint32_t *)
  info : Z;         (* uint32_t *)
  align : Z;        (* uint64_t *)
  entry_size : Z    (* uint64_t *)
}.
(** Modelled from the spec: the default-initialised header, all-zero. *)
Definition zero : t := mk 0 0 0 0 0 0 0 0 0 0.
(** The object representation [write] sends to the stream. *)
Definition bytes (h : t) : list byte :=
  le_bytes 4 (name_offset h) ++ le_bytes 4 (type h) ++ le_bytes 8 (flags h)
  ++ le_bytes 8 (address h) ++ le_bytes 8 (offset h) ++ le_bytes 8 (size h)
  ++ le_bytes 4 (link h) ++ le_bytes 4 (info h) ++ le_bytes 8 (align h)
  ++ le_bytes 8 (entry_size h).
End SectionHeader.

Module SegmentHeader.
(** Modelled from the spec: [struct SegmentHeader] of [elf.h], a
    fixed-layout record of 56 bytes. *)
Record t : Type := mk {
  type : Z;              (* uint32_t *)
  flags : Z;             (* uint32_t *)
  offset : Z;            (* uint64_t *)
  address : Z;           (* uint64_t *)
  physical_address : Z;  (* uint64_t *)
  file_size : Z;         (* uint64_t *)
  mem_size : Z;          (* uint64_t *)
  align : Z              (* uint64_t *)
}.
(** Modelled from the spec: the default-initialised header, all-zero. *)
Definition zero : t := mk 0 0 0 0 0 0 0 0.
(** The object representation [write] sends to the stream. *)
Definition bytes (h : t) : list byte :=
  le_bytes 4 (type h) ++ le_bytes 4 (flags h) ++ le_bytes 8 (offset h)
  ++ le_bytes 8 (address h) ++ le_bytes 8 (physical_address h)
  ++ le_bytes 8 (file_size h) ++ le_bytes 8 (mem_size h)
  ++ le_bytes 8 (align h).
End SegmentHeader.

Module Symbol.
(** Modelled from the spec: [struct Symbol] of [elf.h], a fixed-layout
    record: name offset, binding and type bits, section index, address and
    size, in the ELF-64 layout of 24 bytes. *)
Record t : Type := mk {
  name_offset : Z;    (* uint32_t *)
  info : Z;           (* uint8_t *)
  other : Z;          (* uint8_t *)
  section_index : Z;  (* uint16_t *)
  address : Z;        (* uint64_t *)
  size : Z            (* uint64_t *)
}.
(** Modelled from the spec: the default-initialised symbol, all-zero. *)
Definition zero : t := mk 0 0 0 0 0 0.
(** The object representation of a symbol in the serialized table. *)
Definition bytes (s : t) : list byte :=
  le_bytes 4 (name_offset s) ++ le_bytes 1 (info s) ++ le_bytes 1 (other s)
  ++ le_bytes 2 (section_index s) ++ le_bytes 8 (address s)
  ++ le_bytes 8 (size s).
(** [sizeof(Symbol)] *)
Definition sizeof : Z := 24.
End Symbol.

Module FileHeader.
(** Modelled from the spec: [struct FileHeader] of [elf.h]: the fixed
    identification fields of the format, the offsets and counts of the two
    header tables and the index of the section of section names. *)
Record t : Type := mk {
  ident : list byte;            (* uint8_t[16] *)
  type : Z;                     (* uint16_t *)
  machine : Z;                  (* uint16_t *)
  version : Z;                  (* uint32_t *)
  entry_address : Z;            (* uint64_t *)
  segment_header_offset : Z;    (* uint64_t *)
  section_header_offset : Z;    (* uint64_t *)
  flags : Z;                    (* uint32_t *)
  header_size : Z;              (* uint16_t *)
  segment_header_size : Z;      (* uint16_t *)
  segment_header_count : Z;     (* uint16_t *)
  section_header_size : Z;      (* uint16_t *)
  section_header_count : Z;     (* uint16_t *)
  section_name_index : Z        (* uint16_t *)
}.
(** The object representation [write] sends to the stream. *)
Definition bytes (h : t) : list byte :=
  ident h ++ le_bytes 2 (type h) ++ le_bytes 2 (machine h)
  ++ le_bytes 4 (version h) ++ le_bytes 8 (entry_address h)
  ++ le_bytes 8 (segment_header_offset h)
  ++ le_bytes 8 (section_header_offset h) ++ le_bytes 4 (flags h)
  ++ le_bytes 2 (header_size h) ++ le_bytes 2 (segment_header_size h)
  ++ le_bytes 2 (segment_header_count h)
  ++ le_bytes 2 (section_header_size h)
  ++ le_bytes 2 (section_header_count h)
  ++ le_bytes 2 (section_name_index h).
End FileHeader.

Module SectionIdx.
(** Modelled from the spec: [enum class SectionIdx] of [elf.h], the closed
    set of the five sections in their fixed order; [raw] is the index in the
    section-header table and [kTotal] the number of sections. *)
Inductive t : Type := kNull | kText | kDynsym | kDynstr | kShstrtab.
(** [raw(idx)], the integer under the enumerator. *)
Definition raw (i : t) : nat :=
  match i with
  | kNull => 0 | kText => 1 | kDynsym => 2 | kDynstr => 3 | kShstrtab => 4
  end.
(** [SectionIdx::kTotal] *)
Definition kTotal : nat := 5.
End SectionIdx.

Module SegmentIdx.
(** Modelled from the spec: [enum class SegmentIdx] of [elf.h], the two
    segments in their fixed order. *)
Inductive t : Type := kText | kReadonly.
(** [raw(idx)], the integer under the enumerator. *)
Definition raw (i : t) : nat :=
  match i with kText => 0 | kReadonly => 1 end.
(** [SegmentIdx::kTotal] *)
Definition kTotal : nat := 2.
End SegmentIdx.

(** ** The append-only tables *)

Module StringTable.
(** Modelled from the spec: [class StringTable] of [elf.h], an ordered
    byte buffer; [bytes] exposes it. *)
Record t : Type := mk { bytes : list byte }.
(** Modelled from the spec: the constructor of [StringTable]; the table is
    seeded with one terminator byte, so that offset 0 is the empty string. *)
Definition new : t := mk [x00].
(** Modelled from the spec: [StringTable::insert] appends the text and one
    terminator byte and returns the offset at which the text starts. *)
Definition insert (tbl : t) (s : string) : Z * t :=
  (Z.of_nat (length (bytes tbl)),
   mk (bytes tbl ++ list_byte_of_string s ++ [x00])).
End StringTable.

Module SymbolTable.
(** Modelled from the spec: [class SymbolTable] of [elf.h], an ordered
    sequence of symbols. *)
Record t : Type := mk { syms : list Symbol.t }.
(** Modelled from the spec: the constructor of [SymbolTable]; the table
    begins with one zero-valued record at index 0. *)
Definition new : t := mk [Symbol.zero].
(** Modelled from the spec: [SymbolTable::insert] appends. *)
Definition insert (tbl : t) (sym : Symbol.t) : t := mk (syms tbl ++ [sym]).
(** Modelled from the spec: [SymbolTable::bytes] serializes the records in
    insertion order with the fixed record layout. *)
Definition bytes (tbl : t) : list byte := concat (map Symbol.bytes (syms tbl)).
End SymbolTable.

(** ** The declarations of [elf.h] whose values the sources do not give *)

(** The parameters of the development: the numeric constants of the format,
    the default-initialised file header with its identification fields, and
    the offsets of the members of [Object] that [elf.cpp] takes with
    [offsetof]. *)
Class ElfH : Type := {
  kProgram : Z;
  kSymbolTable : Z;
  kStringTable : Z;
  kSectionAlloc : Z;
  kSectionExecutable : Z;
  kSectionInfoLink : Z;
  kLoadableSegment : Z;
  kSegmentExecutable : Z;
  kSegmentReadable : Z;
  kGlobal : Z;
  kFunc : Z;
  FileHeader_default : FileHeader.t;
  offsetof_section_headers : Z;
  offsetof_segment_headers : Z;
  offsetof_header_stop : Z
}.

(** Modelled from the spec: [struct Object] of [elf.h], the layout
    workspace: the file header, the arrays of section and segment headers,
    the three tables and the file-offset cursor [section_offset], which has
    the width of the [uint64_t] values [alignOffset] computes from it. *)
Record Object : Type := mkObject {
  file_header : FileHeader.t;
  section_headers : list SectionHeader.t;   (* std::array<_, kTotal> *)
  segment_headers : list SegmentHeader.t;   (* std::array<_, kTotal> *)
  dynsym : SymbolTable.t;
  dynstr : StringTable.t;
  shstrtab : StringTable.t;
  section_offset : Z
}.

#[local] Instance SectionHeader_inhabited : Inhabited SectionHeader.t :=
  populate SectionHeader.zero.
#[local] Instance SegmentHeader_inhabited : Inhabited SegmentHeader.t :=
  populate SegmentHeader.zero.

(** Modelled from the spec: [Object::getSectionHeader] and
    [Object::getSegmentHeader], the header at the index of [idx].  They
    return references; an assignment through one is [setSectionHeader] or
    [setSegmentHeader]. *)
Definition getSectionHeader (elf : Object) (idx : SectionIdx.t) : SectionHeader.t :=
  section_headers elf !!! SectionIdx.raw idx.

Definition getSegmentHeader (elf : Object) (idx : SegmentIdx.t) : SegmentHeader.t :=
  segment_headers elf !!! SegmentIdx.raw idx.

Definition setSectionHeader (elf : Object) (idx : SectionIdx.t)
    (h : SectionHeader.t) : Object :=
  mkObject (file_header elf) (<[SectionIdx.raw idx := h]> (section_headers elf))
    (segment_headers elf) (dynsym elf) (dynstr elf) (shstrtab elf)
    (section_offset elf).

Definition setSegmentHeader (elf : Object) (idx : SegmentIdx.t)
    (h : SegmentHeader.t) : Object :=
  mkObject (file_header elf) (section_headers elf)
    (<[SegmentIdx.raw idx := h]> (segment_headers elf)) (dynsym elf)
    (dynstr elf) (shstrtab elf) (section_offset elf).

(** Assignments to the members of the workspace. *)
Definition set_section_offset (elf : Object) (off : Z) : Object :=
  mkObject (file_header elf) (section_headers elf) (segment_headers elf)
    (dynsym elf) (dynstr elf) (shstrtab elf) off.

Definition set_shstrtab (elf : Object) (tbl : StringTable.t) : Object :=
  mkObject (file_header elf) (section_headers elf) (segment_headers elf)
    (dynsym elf) (dynstr elf) tbl (section_offset elf).

Definition set_dynstr (elf : Object) (tbl : StringTable.t) : Object :=
  mkObject (file_header elf) (section_headers elf) (segment_headers elf)
    (dynsym elf) tbl (shstrtab elf) (section_offset elf).

Definition set_dynsym (elf : Object) (tbl : SymbolTable.t) : Object :=
  mkObject (file_header elf) (section_headers elf) (segment_headers elf)
    tbl (dynstr elf) (shstrtab elf) (section_offset elf).

Definition set_file_header (elf : Object) (h : FileHeader.t) : Object :=
  mkObject h (section_headers elf) (segment_headers elf)
    (dynsym elf) (dynstr elf) (shstrtab elf) (section_offset elf).

(** Modelled from the spec: [struct CodeEntry] of [elf.h], the input of
    [writeEntries]: a function name and its machine code. *)
Record CodeEntry : Type := mkCodeEntry {
  func_name : string;
  code : list byte
}.

(** [entry.code.size()], a [size_t]. *)
Definition code_size (entry : CodeEntry) : Z := Z.of_nat (length (code entry)).

(** ** The output stream *)

(** [std::ostream] of the C++ library as [elf.cpp] uses it: [write], [put]
    and [bad].  [written] is what the sink has taken, and the sink takes
    [room] more bytes before it fails; [badbit] and [failbit] are the two
    error bits of the stream state, and nothing in [elf.cpp] clears them. *)
Record ostream : Type := mkOstream {
  written : list byte;
  room : N;
  badbit : bool;
  failbit : bool
}.

(** [os.good()] and [os.bad()]. *)
Definition good (os : ostream) : bool := negb (badbit os || failbit os).
Definition bad (os : ostream) : bool := badbit os.

(** [os.write(data, size)].  On a stream that is not good the output
    function only sets [failbit]; otherwise the bytes go to the sink, and
    [badbit] is set when the sink does not take them all. *)
Definition ostream_write (os : ostream) (data : list byte) : ostream :=
  if good os then
    if (N.of_nat (length data) <=? room os)%N then
      mkOstream (written os ++ data) (room os - N.of_nat (length data)) false false
    else
      mkOstream (written os ++ take (N.to_nat (room os)) data) 0 true false
  else mkOstream (written os) (room os) (badbit os) true.

(** [os.put(c)] *)
Definition ostream_put (os : ostream) (c : byte) : ostream :=
  ostream_write os [c].

(** The stream after the sink has taken all of [data]. *)
Definition ostream_accept (os : ostream) (data : list byte) : ostream :=
  mkOstream (written os ++ data) (room os - N.of_nat (length data)) false false.

(** ** [elf.cpp] *)

Section Elf.
Context `{K : ElfH}.

(** Lines 19-21. *)
Definition kPageSize : Z := 0x1000.

Definition kTextStartAddress : Z := kPageSize.

(** Lines 23-26; [n] is a [uint64_t], and so are [mask], the sum and the
    complement. *)
Definition alignUp (n : Z) : Z :=
  let mask := wrap64 (kPageSize - 1) in
  Z.land (wrap64 (n + mask)) (wrap64 (Z.lnot mask)).

(** Lines 28-30. *)
Definition isAligned (n : Z) : bool := n =? alignUp n.

(** Lines 32-37.  Returns the padding; the second component is the updated
    workspace. *)
Definition alignOffset (elf : Object) : Z * Object :=
  let new_offset := alignUp (section_offset elf) in
  let delta := wrap64 (new_offset - section_offset elf) in
  (delta, set_section_offset elf new_offset).

(** Lines 39-46. *)
Definition initFileHeader (elf : Object) : Object :=
  let header := file_header elf in
  set_file_header elf
    {| FileHeader.ident := FileHeader.ident header;
       FileHeader.type := FileHeader.type header;
       FileHeader.machine := FileHeader.machine header;
       FileHeader.version := FileHeader.version header;
       FileHeader.entry_address := FileHeader.entry_address header;
       FileHeader.segment_header_offset := offsetof_segment_headers;
       FileHeader.section_header_offset := offsetof_section_headers;
       FileHeader.flags := FileHeader.flags header;
       FileHeader.header_size := FileHeader.header_size header;
       FileHeader.segment_header_size := FileHeader.segment_header_size header;
       FileHeader.segment_header_count := Z.of_nat SegmentIdx.kTotal;
       FileHeader.section_header_size := FileHeader.section_header_size header;
       FileHeader.section_header_count := Z.of_nat SectionIdx.kTotal;
       FileHeader.section_name_index := Z.of_nat (SectionIdx.raw SectionIdx.kShstrtab) |}.

(** Lines 48-67.  The fields the function does not assign keep the value
    they have in the workspace; the same holds for the functions below. *)
Definition initTextSection (elf : Object) (text_size : Z) : result Object :=
  check JIT_CHECK (isAligned (section_offset elf))
                  (TextUnaligned (section_offset elf));
  let header := getSectionHeader elf SectionIdx.kText in
  let '(name, tbl) := StringTable.insert (shstrtab elf) ".text" in
  let elf := set_shstrtab elf tbl in
  let header :=
    {| SectionHeader.name_offset := wrap32 name;
       SectionHeader.type := kProgram;
       SectionHeader.flags := Z.lor kSectionAlloc kSectionExecutable;
       SectionHeader.address := section_offset elf;
       SectionHeader.offset := section_offset elf;
       SectionHeader.size := text_size;
       SectionHeader.link := SectionHeader.link header;
       SectionHeader.info := SectionHeader.info header;
       SectionHeader.align := 0x10;
       SectionHeader.entry_size := SectionHeader.entry_size header |} in
  let elf := setSectionHeader elf SectionIdx.kText header in
  Ok (set_section_offset elf
        (wrap64 (section_offset elf + SectionHeader.size header))).

(** Lines 69-89. *)
Definition initDynsymSection (elf : Object) : result Object :=
  check JIT_CHECK (isAligned (section_offset elf))
                  (DynsymUnaligned (section_offset elf));
  let header := getSectionHeader elf SectionIdx.kDynsym in
  let '(name, tbl) := StringTable.insert (shstrtab elf) ".dynsym" in
  let elf := set_shstrtab elf tbl in
  let header :=
    {| SectionHeader.name_offset := wrap32 name;
       SectionHeader.type := kSymbolTable;
       SectionHeader.flags := Z.lor kSectionAlloc kSectionInfoLink;
       SectionHeader.address := section_offset elf;
       SectionHeader.offset := section_offset elf;
       SectionHeader.size :=
         wrap64 (Z.of_nat (length (SymbolTable.bytes (dynsym elf))));
       SectionHeader.link := Z.of_nat (SectionIdx.raw SectionIdx.kDynstr);
       SectionHeader.info := 1;
       SectionHeader.align := SectionHeader.align header;
       SectionHeader.entry_size := Symbol.sizeof |} in
  let elf := setSectionHeader elf SectionIdx.kDynsym header in
  Ok (set_section_offset elf
        (wrap64 (section_offset elf + SectionHeader.size header))).

(** Lines 91-101. *)
Definition initDynstrSection (elf : Object) : Object :=
  let header := getSectionHeader elf SectionIdx.kDynstr in
  let '(name, tbl) := StringTable.insert (shstrtab elf) ".dynstr" in
  let elf := set_shstrtab elf tbl in
  let header :=
    {| SectionHeader.name_offset := wrap32 name;
       SectionHeader.type := kStringTable;
       SectionHeader.flags := kSectionAlloc;
       SectionHeader.address := section_offset elf;
       SectionHeader.offset := section_offset elf;
       SectionHeader.size :=
         wrap64 (Z.of_nat (length (StringTable.bytes (dynstr elf))));
       SectionHeader.link := SectionHeader.link header;
       SectionHeader.info := SectionHeader.info header;
       SectionHeader.align := SectionHeader.align header;
       SectionHeader.entry_size := SectionHeader.entry_size header |} in
  let elf := setSectionHeader elf SectionIdx.kDynstr header in
  set_section_offset elf
    (wrap64 (section_offset elf + SectionHeader.size header)).

(** Lines 103-111.  The size is taken after the name of the section itself
    has been inserted. *)
Definition initShstrtabSection (elf : Object) : Object :=
  let header := getSectionHeader elf SectionIdx.kShstrtab in
  let '(name, tbl) := StringTable.insert (shstrtab elf) ".shstrtab" in
  let elf := set_shstrtab elf tbl in
  let header :=
    {| SectionHeader.name_offset := wrap32 name;
       SectionHeader.type := kStringTable;
       SectionHeader.flags := SectionHeader.flags header;
       SectionHeader.address := SectionHeader.address header;
       SectionHeader.offset := section_offset elf;
       SectionHeader.size :=
         wrap64 (Z.of_nat (length (StringTable.bytes (shstrtab elf))));
       SectionHeader.link := SectionHeader.link header;
       SectionHeader.info := SectionHeader.info header;
       SectionHeader.align := SectionHeader.align header;
       SectionHeader.entry_size := SectionHeader.entry_size header |} in
  let elf := setSectionHeader elf SectionIdx.kShstrtab header in
  set_section_offset elf
    (wrap64 (section_offset elf + SectionHeader.size header)).

(** Lines 113-125. *)
Definition initTextSegment (elf : Object) : Object :=
  let section := getSectionHeader elf SectionIdx.kText in
  let header := getSegmentHeader elf SegmentIdx.kText in
  let file_size := SectionHeader.size section in
  setSegmentHeader elf SegmentIdx.kText
    {| SegmentHeader.type := kLoadableSegment;
       SegmentHeader.flags := Z.lor kSegmentExecutable kSegmentReadable;
       SegmentHeader.offset := SectionHeader.offset section;
       SegmentHeader.address := SectionHeader.address section;
       SegmentHeader.physical_address := SegmentHeader.physical_address header;
       SegmentHeader.file_size := file_size;
       SegmentHeader.mem_size := file_size;
       SegmentHeader.align := 0x1000 |}.

(** Lines 127-142. *)
Definition initReadonlySegment (elf : Object) : result Object :=
  let dynsym := getSectionHeader elf SectionIdx.kDynsym in
  let dynstr := getSectionHeader elf SectionIdx.kDynstr in
  check JIT_CHECK (SectionHeader.address dynsym <? SectionHeader.address dynstr)
                  SectionOrder;
  let header := getSegmentHeader elf SegmentIdx.kReadonly in
  let file_size := wrap64 (SectionHeader.size dynsym + SectionHeader.size dynstr) in
  Ok (setSegmentHeader elf SegmentIdx.kReadonly
        {| SegmentHeader.type := kLoadableSegment;
           SegmentHeader.flags := kSegmentReadable;
           SegmentHeader.offset := SectionHeader.offset dynsym;
           SegmentHeader.address := SectionHeader.address dynsym;
           SegmentHeader.physical_address := SegmentHeader.physical_address header;
           SegmentHeader.file_size := file_size;
           SegmentHeader.mem_size := file_size;
           SegmentHeader.align := 0x1000 |}).

(** Lines 144-152, [write(os, data, size)] and [write(os, bytes)]: the bytes
    go to the stream, then the stream is checked. *)
Definition write (os : ostream) (data : list byte) : result ostream :=
  let os := ostream_write os data in
  check JIT_CHECK (negb (bad os)) (WriteFailed (Z.of_nat (length data)));
  Ok os.

(** Lines 154-158, [pad(os, size)]: [size] calls of [os.put(0)]; the stream
    is not looked at. *)
Fixpoint pad (os : ostream) (size : nat) : ostream :=
  match size with
  | O => os
  | S size' => pad (ostream_put os x00) size'
  end.

(** Modelled from the spec: a default-constructed [Object]; the file header
    has its fixed fields, every section and segment header is zero, the
    tables are new and the cursor is 0. *)
Definition Object_new : Object :=
  {| file_header := FileHeader_default;
     section_headers := replicate SectionIdx.kTotal SectionHeader.zero;
     segment_headers := replicate SegmentIdx.kTotal SegmentHeader.zero;
     dynsym := SymbolTable.new;
     dynstr := StringTable.new;
     shstrtab := StringTable.new;
     section_offset := 0 |}.

(** Lines 168-180, the body of the first loop of [writeEntries]; the state
    is the workspace and [text_end_address].  [Symbol sym;] is
    default-initialised, so the field the loop does not assign is zero. *)
Definition symbol_step (st : Object * Z) (entry : CodeEntry) : Object * Z :=
  let '(elf, text_end_address) := st in
  let '(name, tbl) := StringTable.insert (dynstr elf) (func_name entry) in
  let elf := set_dynstr elf tbl in
  let sym :=
    {| Symbol.name_offset := wrap32 name;
       Symbol.info := Z.lor kGlobal kFunc;
       Symbol.other := Symbol.other Symbol.zero;
       Symbol.section_index := Z.of_nat (SectionIdx.raw SectionIdx.kText);
       Symbol.address := text_end_address;
       Symbol.size := wrap64 (code_size entry) |} in
  let elf := set_dynsym elf (SymbolTable.insert (dynsym elf) sym) in
  (elf, wrap64 (text_end_address + code_size entry)).

(** Lines 163-202, [writeEntries] up to [initReadonlySegment]: the workspace
    once every header is final, with the two paddings. *)
Definition writeEntries_layout (entries : list CodeEntry)
    : result (Object * Z * Z) :=
  let elf := Object_new in
  let elf := initFileHeader elf in
  let '(elf, text_end_address) :=
    fold_left symbol_step entries (elf, kTextStartAddress) in
  let text_size := wrap64 (text_end_address - kTextStartAddress) in
  let elf := set_section_offset elf offsetof_header_stop in
  let '(header_padding, elf) := alignOffset elf in
  check JIT_CHECK (section_offset elf =? kTextStartAddress)
                  (HeadersTooBig (section_offset elf));
  do elf <- initTextSection elf text_size;
  let '(text_padding, elf) := alignOffset elf in
  do elf <- initDynsymSection elf;
  let elf := initDynstrSection elf in
  let elf := initShstrtabSection elf in
  let elf := initTextSegment elf in
  do elf <- initReadonlySegment elf;
  Ok (elf, header_padding, text_padding).

(** Lines 211-213, the second loop of [writeEntries]. *)
Fixpoint write_codes (os : ostream) (entries : list CodeEntry) : result ostream :=
  match entries with
  | [] => Ok os
  | entry :: rest => do os <- write os (code entry); write_codes os rest
  end.

(** Lines 204-218, [writeEntries] from the first [write] on. *)
Definition writeEntries_emit (os : ostream) (entries : list CodeEntry)
    (elf : Object) (header_padding text_padding : Z) : result ostream :=
  do os <- write os (FileHeader.bytes (file_header elf));
  do os <- write os (concat (map SectionHeader.bytes (section_headers elf)));
  do os <- write os (concat (map SegmentHeader.bytes (segment_headers elf)));
  let os := pad os (Z.to_nat header_padding) in
  do os <- write_codes os entries;
  let os := pad os (Z.to_nat text_padding) in
  do os <- write os (SymbolTable.bytes (dynsym elf));
  do os <- write os (StringTable.bytes (dynstr elf));
  write os (StringTable.bytes (shstrtab elf)).

(** Lines 162-219. *)
Definition writeEntries (os : ostream) (entries : list CodeEntry)
    : result ostream :=
  do '(elf, header_padding, text_padding) <- writeEntries_layout entries;
  writeEntries_emit os entries elf header_padding text_padding.

End Elf.

(** ** The layout in closed form

    What the claims are stated with: sums of code lengths, the contents of
    the tables, and the offsets of the sections written without
    wrap-around. *)

Section Layout.
Context `{K : ElfH}.

(** The sum of the code lengths of [entries]. *)
Definition total_code_size (entries : list CodeEntry) : Z :=
  fold_right (fun entry acc => code_size entry + acc) 0 entries.

(** [n] rounded up to a multiple of the page size. *)
Definition page_round (n : Z) : Z :=
  kPageSize * ((n + (kPageSize - 1)) / kPageSize).

(** What the names of [entries] add to the symbol-name table. *)
Definition names_bytes (entries : list CodeEntry) : list byte :=
  concat (map (fun entry => list_byte_of_string (func_name entry) ++ [x00]) entries).

(** The symbols of [entries] when the first one is placed at [addr] and its
    name at offset [name] of the symbol-name table. *)
Fixpoint symbols_at (addr name : Z) (entries : list CodeEntry) : list Symbol.t :=
  match entries with
  | [] => []
  | entry :: rest =>
      {| Symbol.name_offset := wrap32 name;
         Symbol.info := Z.lor kGlobal kFunc;
         Symbol.other := 0;
         Symbol.section_index := Z.of_nat (SectionIdx.raw SectionIdx.kText);
         Symbol.address := addr;
         Symbol.size := code_size entry |}
      :: symbols_at (addr + code_size entry)
           (name + Z.of_nat (length (list_byte_of_string (func_name entry) ++ [x00])))
           rest
  end.

Definition shstrtab_bytes : list byte :=
  x00 :: list_byte_of_string ".text" ++ x00 :: list_byte_of_string ".dynsym"
  ++ x00 :: list_byte_of_string ".dynstr" ++ x00 :: list_byte_of_string ".shstrtab"
  ++ [x00].

Definition dynsym_offset (entries : list CodeEntry) : Z :=
  kTextStartAddress + page_round (total_code_size entries).

Definition dynsym_size (entries : list CodeEntry) : Z :=
  Symbol.sizeof * (Z.of_nat (length entries) + 1).

Definition dynstr_offset (entries : list CodeEntry) : Z :=
  dynsym_offset entries + dynsym_size entries.

Definition dynstr_size (entries : list CodeEntry) : Z :=
  1 + Z.of_nat (length (names_bytes entries)).

Definition shstrtab_offset (entries : list CodeEntry) : Z :=
  dynstr_offset entries + dynstr_size entries.

(** The offset one past the last section. *)
Definition object_end (entries : list CodeEntry) : Z :=
  shstrtab_offset entries + Z.of_nat (length shstrtab_bytes).

(** The object has 64-bit offsets and addresses: it is at most [2 ^ 64]
    bytes long. *)
Definition object_fits (entries : list CodeEntry) : Prop :=
  object_end entries < 2 ^ 64.

(** The header region ends in the first page. *)
Definition headers_fit : Prop :=
  alignUp offsetof_header_stop = kTextStartAddress.

Definition header_padding_of : Z :=
  wrap64 (kTextStartAddress - offsetof_header_stop).

Definition text_padding_of (entries : list CodeEntry) : Z :=
  page_round (total_code_size entries) - total_code_size entries.

(** The workspace [writeEntries] ends with, when nothing wraps around. *)
Definition layout_of (entries : list CodeEntry) : Object :=
  {| file_header := file_header (initFileHeader Object_new);
     section_headers :=
       [ SectionHeader.zero;
         {| SectionHeader.name_offset := 1;
            SectionHeader.type := kProgram;
            SectionHeader.flags := Z.lor kSectionAlloc kSectionExecutable;
            SectionHeader.address := kTextStartAddress;
            SectionHeader.offset := kTextStartAddress;
            SectionHeader.size := total_code_size entries;
            SectionHeader.link := 0;
            SectionHeader.info := 0;
            SectionHeader.align := 0x10;
            SectionHeader.entry_size := 0 |};
         {| SectionHeader.name_offset := 7;
            SectionHeader.type := kSymbolTable;
            SectionHeader.flags := Z.lor kSectionAlloc kSectionInfoLink;
            SectionHeader.address := dynsym_offset entries;
            SectionHeader.offset := dynsym_offset entries;
            SectionHeader.size := dynsym_size entries;
            SectionHeader.link := 3;
            SectionHeader.info := 1;
            SectionHeader.align := 0;
            SectionHeader.entry_size := Symbol.sizeof |};
         {| SectionHeader.name_offset := 15;
            SectionHeader.type := kStringTable;
            SectionHeader.flags := kSectionAlloc;
            SectionHeader.address := dynstr_offset entries;
            SectionHeader.offset := dynstr_offset entries;
            SectionHeader.size := dynstr_size entries;
            SectionHeader.link := 0;
            SectionHeader.info := 0;
            SectionHeader.align := 0;
            SectionHeader.entry_size := 0 |};
         {| SectionHeader.name_offset := 23;
            SectionHeader.type := kStringTable;
            SectionHeader.flags := 0;
            SectionHeader.address := 0;
            SectionHeader.offset := shstrtab_offset entries;
            SectionHeader.size := Z.of_nat (length shstrtab_bytes);
            SectionHeader.link := 0;
            SectionHeader.info := 0;
            SectionHeader.align := 0;
            SectionHeader.entry_size := 0 |} ];
     segment_headers :=
       [ {| SegmentHeader.type := kLoadableSegment;
            SegmentHeader.flags := Z.lor kSegmentExecutable kSegmentReadable;
            SegmentHeader.offset := kTextStartAddress;
            SegmentHeader.address := kTextStartAddress;
            SegmentHeader.physical_address := 0;
            SegmentHeader.file_size := total_code_size entries;
            SegmentHeader.mem_size := total_code_size entries;
            SegmentHeader.align := 0x1000 |};
         {| SegmentHeader.type := kLoadableSegment;
            SegmentHeader.flags := kSegmentReadable;
            SegmentHeader.offset := dynsym_offset entries;
            SegmentHeader.address := dynsym_offset entries;
            SegmentHeader.physical_address := 0;
            SegmentHeader.file_size := dynsym_size entries + dynstr_size entries;
            SegmentHeader.mem_size := dynsym_size entries + dynstr_size entries;
            SegmentHeader.align := 0x1000 |} ];
     dynsym := SymbolTable.mk (Symbol.zero :: symbols_at kTextStartAddress 1 entries);
     dynstr := StringTable.mk (x00 :: names_bytes entries);
     shstrtab := StringTable.mk shstrtab_bytes;
     section_offset := object_end entries |}.

(** The bytes of a complete object, part by part. *)
Definition object_image (entries : list CodeEntry) (elf : Object)
    (header_padding text_padding : Z) : list byte :=
  FileHeader.bytes (file_header elf)
  ++ concat (map SectionHeader.bytes (section_headers elf))
  ++ concat (map SegmentHeader.bytes (segment_headers elf))
  ++ zeros (Z.to_nat header_padding)
  ++ concat (map code entries)
  ++ zeros (Z.to_nat text_padding)
  ++ SymbolTable.bytes (dynsym elf)
  ++ StringTable.bytes (dynstr elf)
  ++ StringTable.bytes (shstrtab elf).

(** [Object] has no gap before [header_stop], which lies in the first
    page. *)
Definition headers_exact : Prop :=
  Z.of_nat (length (FileHeader.bytes FileHeader_default))
  + 64 * Z.of_nat SectionIdx.kTotal + 56 * Z.of_nat SegmentIdx.kTotal
  = offsetof_header_stop /\ offsetof_header_stop <= kPageSize.

(** The length of a complete object. *)
Definition object_size (entries : list CodeEntry) : Z :=
  Z.of_nat (length (object_image entries (layout_of entries) header_padding_of
                      (text_padding_of entries))).

End Layout.

(** The symbols of the entries: the table without the reserved null symbol,
    and their addresses. *)
Definition entry_symbols (elf : Object) : list Symbol.t :=
  tail (SymbolTable.syms (dynsym elf)).

Definition symbol_addresses (elf : Object) : list Z :=
  map Symbol.address (entry_symbols elf).

(** [content] sits in [image] at offset [offset]. *)
Definition placed_at (image content : list byte) (offset : Z) : Prop :=
  exists before after,
    image = before ++ content ++ after /\ Z.of_nat (length before) = offset.

(** The header [header] describes where [content] is in [image]. *)
Definition section_in_image (image : list byte) (header : SectionHeader.t)
    (content : list byte) : Prop :=
  placed_at image content (SectionHeader.offset header) /\
  SectionHeader.size header = Z.of_nat (length content).

(** ** An instance of the declarations

    The values of the ELF-64 format for a little-endian x86-64 shared
    object, with [Object] laid out without gaps: file header, five section
    headers, two segment headers, [header_stop]. *)

Definition elf64 : ElfH :=
  {| kProgram := 0x01;
     kSymbolTable := 0x02;
     kStringTable := 0x03;
     kSectionAlloc := 0x02;
     kSectionExecutable := 0x04;
     kSectionInfoLink := 0x40;
     kLoadableSegment := 0x01;
     kSegmentExecutable := 0x01;
     kSegmentReadable := 0x04;
     kGlobal := 0x10;
     kFunc := 0x02;
     FileHeader_default :=
       {| FileHeader.ident :=
            [x7f; x45; x4c; x46; x02; x01; x01; x00;
             x00; x00; x00; x00; x00; x00; x00; x00];
          FileHeader.type := 0x03;
          FileHeader.machine := 0x3e;
          FileHeader.version := 1;
          FileHeader.entry_address := 0;
          FileHeader.segment_header_offset := 0;
          FileHeader.section_header_offset := 0;
          FileHeader.flags := 0;
          FileHeader.header_size := 64;
          FileHeader.segment_header_size := 56;
          FileHeader.segment_header_count := 0;
          FileHeader.section_header_size := 64;
          FileHeader.section_header_count := 0;
          FileHeader.section_name_index := 0 |};
     offsetof_section_headers := 64;
     offsetof_segment_headers := 64 + 5 * 64;
     offsetof_header_stop := 64 + 5 * 64 + 2 * 56 |}.

(** The same declarations with a header region of [stop] bytes. *)
Definition elf64_with_header_stop (stop : Z) : ElfH :=
  {| kProgram := @kProgram elf64;
     kSymbolTable := @kSymbolTable elf64;
     kStringTable := @kStringTable elf64;
     kSectionAlloc := @kSectionAlloc elf64;
     kSectionExecutable := @kSectionExecutable elf64;
     kSectionInfoLink := @kSectionInfoLink elf64;
     kLoadableSegment := @kLoadableSegment elf64;
     kSegmentExecutable := @kSegmentExecutable elf64;
     kSegmentReadable := @kSegmentReadable elf64;
     kGlobal := @kGlobal elf64;
     kFunc := @kFunc elf64;
     FileHeader_default := @FileHeader_default elf64;
     offsetof_section_headers := @offsetof_section_headers elf64;
     offsetof_segment_headers := @offsetof_segment_headers elf64;
     offsetof_header_stop := stop |}.

(** A stream over a sink that accepts [n] bytes. *)
Definition ostream_new (n : N) : ostream := mkOstream [] n false false.

(** Two functions of 16 and 32 bytes, and two functions without code. *)
Definition ex_entries : list CodeEntry :=
  [mkCodeEntry "foo" (replicate 16 x90); mkCodeEntry "bar" (replicate 32 xcc)].

Definition zero_size_entries : list CodeEntry :=
  [mkCodeEntry "f" []; mkCodeEntry "g" []].


(** The bytes the names of [entries] take in the symbol-name table: every
    name, duplicates included, with its terminator. *)
Definition names_size (entries : list CodeEntry) : Z :=
  fold_right (fun entry acc => Z.of_nat (String.length (func_name entry)) + 1 + acc)
    0 entries.

(** * Properties *)

(** ** Wrap-around and page alignment *)

Lemma wrap64_small z : 0 <= z < 2 ^ 64 -> wrap64 z = z.
Proof. intros H. unfold wrap64. apply Z.mod_small. exact H. Qed.

Lemma wrap32_small z : 0 <= z < 2 ^ 32 -> wrap32 z = z.
Proof. intros H. unfold wrap32. apply Z.mod_small. exact H. Qed.

Lemma wrap64_range z : 0 <= wrap64 z < 2 ^ 64.
Proof. unfold wrap64. apply Z.mod_pos_bound. lia. Qed.

(** [x & ~mask] clears the twelve low bits of a 64-bit [x]. *)
Lemma page_mask_land x :
  0 <= x < 2 ^ 64 -> Z.land x (wrap64 (Z.lnot (wrap64 (kPageSize - 1)))) = x - x mod 4096.
Proof.
  intros Hx.
  change (wrap64 (Z.lnot (wrap64 (kPageSize - 1)))) with (Z.ldiff (Z.ones 64) (Z.ones 12)).
  assert (E : x - x mod 4096 = Z.ldiff x (Z.ones 12)).
  { rewrite Z.ldiff_ones_r by lia. rewrite Z.shiftl_mul_pow2, Z.shiftr_div_pow2 by lia.
    change (2 ^ 12) with 4096. pose proof (Z.div_mod x 4096). lia. }
  rewrite E. apply Z.bits_inj'. intros i Hi.
  rewrite Z.land_spec, !Z.ldiff_spec.
  destruct (Z.lt_ge_cases i 64) as [Hlt | Hge].
  - rewrite (Z.ones_spec_low 64 i) by lia. reflexivity.
  - rewrite (Z.ones_spec_high 64 i) by lia.
    replace (Z.testbit x i) with false; [reflexivity|].
    symmetry. rewrite <- (Z.mod_small x (2 ^ 64)) by lia.
    apply Z.mod_pow2_bits_high. lia.
Qed.

Lemma alignUp_wrap n :
  alignUp n = wrap64 (n + 4095) - wrap64 (n + 4095) mod 4096.
Proof.
  unfold alignUp. cbv zeta. rewrite page_mask_land by apply wrap64_range.
  reflexivity.
Qed.

(** Without wrap-around [alignUp] rounds up to a multiple of the page size. *)
Lemma alignUp_small n :
  0 <= n -> n + 4095 < 2 ^ 64 -> alignUp n = 4096 * ((n + 4095) / 4096).
Proof.
  intros H0 H1. rewrite alignUp_wrap, wrap64_small by lia.
  pose proof (Z.div_mod (n + 4095) 4096). lia.
Qed.

Lemma alignUp_range n : 0 <= alignUp n <= 2 ^ 64 - 4096.
Proof.
  rewrite alignUp_wrap. pose proof (wrap64_range (n + 4095)) as Hr.
  set (x := wrap64 (n + 4095)) in *.
  pose proof (Z.div_mod x 4096 ltac:(lia)) as Hd.
  pose proof (Z.mod_pos_bound x 4096 ltac:(lia)) as Hm.
  assert (x / 4096 < 2 ^ 52).
  { apply Z.div_lt_upper_bound; [lia|]. change (4096 * 2 ^ 52) with (2 ^ 64). lia. }
  assert (0 <= x / 4096) by (apply Z.div_pos; lia).
  change (2 ^ 64) with (4096 * 2 ^ 52) in *. lia.
Qed.

Lemma alignUp_multiple n : alignUp n mod 4096 = 0.
Proof.
  rewrite alignUp_wrap. set (x := wrap64 (n + 4095)).
  pose proof (Z.div_mod x 4096 ltac:(lia)) as Hd.
  replace (x - x mod 4096) with (x / 4096 * 4096) by lia.
  apply Z.mod_mul. lia.
Qed.

Lemma alignUp_fixed m : 0 <= m <= 2 ^ 64 - 4096 -> m mod 4096 = 0 -> alignUp m = m.
Proof.
  intros Hr Hm. rewrite alignUp_small by lia.
  pose proof (Z.div_mod m 4096 ltac:(lia)) as Hd. rewrite Hm in Hd.
  replace (m + 4095) with (m / 4096 * 4096 + 4095) by lia.
  rewrite Z.div_add_l by lia. change (4095 / 4096) with 0. lia.
Qed.

(** The check of [initDynsymSection] cannot fail after [alignOffset]. *)
Lemma isAligned_alignUp n : isAligned (alignUp n) = true.
Proof.
  unfold isAligned. apply Z.eqb_eq. symmetry.
  apply alignUp_fixed; [apply alignUp_range | apply alignUp_multiple].
Qed.

(** ** The sizes of the records

    The assertions at the top of [elf.cpp]: [sizeof(SectionHeader) == 64],
    [sizeof(SegmentHeader) == 56], and, for the instance,
    [sizeof(FileHeader) == FileHeader{}.header_size]. *)

Lemma Symbol_bytes_length s : length (Symbol.bytes s) = 24%nat.
Proof. reflexivity. Qed.

Lemma SectionHeader_bytes_length h : length (SectionHeader.bytes h) = 64%nat.
Proof. reflexivity. Qed.

Lemma SegmentHeader_bytes_length h : length (SegmentHeader.bytes h) = 56%nat.
Proof. reflexivity. Qed.

Lemma SymbolTable_bytes_length tbl :
  Z.of_nat (length (SymbolTable.bytes tbl)) =
  Symbol.sizeof * Z.of_nat (length (SymbolTable.syms tbl)).
Proof.
  destruct tbl as [l]. unfold SymbolTable.bytes, Symbol.sizeof. cbn [SymbolTable.syms].
  induction l as [|s l IH]; [reflexivity|].
  cbn [map concat]. rewrite length_app, Symbol_bytes_length.
  cbn [length]. lia.
Qed.
Lemma FileHeader_bytes_length :
  Z.of_nat (length (FileHeader.bytes (@FileHeader_default elf64))) =
  FileHeader.header_size (@FileHeader_default elf64).
Proof. reflexivity. Qed.

(** Runs the straight-line part of the layout on an explicit workspace. *)
Ltac run_layout :=
  cbv [alignOffset initFileHeader Object_new set_file_header set_section_offset
       set_shstrtab set_dynstr set_dynsym setSectionHeader setSegmentHeader
       getSectionHeader getSegmentHeader
       initTextSection initDynsymSection initDynstrSection initShstrtabSection
       initTextSegment initReadonlySegment
       section_offset file_header section_headers segment_headers dynsym dynstr
       shstrtab JIT_CHECK bind
       StringTable.insert StringTable.bytes StringTable.new
       SymbolTable.new SymbolTable.syms
       SectionHeader.size SectionHeader.link SectionHeader.info
       SectionHeader.align SectionHeader.entry_size SectionHeader.flags
       SectionHeader.address SectionHeader.offset SectionHeader.zero
       SegmentHeader.physical_address SegmentHeader.zero
       SectionIdx.raw SegmentIdx.raw SectionIdx.kTotal SegmentIdx.kTotal
       replicate insert list_insert lookup_total list_lookup_total
       fst snd].

(** ** The layout *)

Section LayoutProperties.
Context `{K : ElfH}.

Lemma code_size_nonneg entry : 0 <= code_size entry.
Proof. unfold code_size. lia. Qed.

Lemma total_code_size_nonneg entries : 0 <= total_code_size entries.
Proof.
  induction entries as [|e es IH]; simpl; [lia|].
  pose proof (code_size_nonneg e). lia.
Qed.

(** The first loop of [writeEntries], from any workspace and address. *)
Lemma symbol_loop entries : forall elf a name,
  0 <= a -> a + total_code_size entries < 2 ^ 64 ->
  name = Z.of_nat (length (StringTable.bytes (dynstr elf))) ->
  fold_left symbol_step entries (elf, a) =
  (mkObject (file_header elf) (section_headers elf) (segment_headers elf)
     (SymbolTable.mk (SymbolTable.syms (dynsym elf) ++ symbols_at a name entries))
     (StringTable.mk (StringTable.bytes (dynstr elf) ++ names_bytes entries))
     (shstrtab elf) (section_offset elf), a + total_code_size entries).
Proof.
  induction entries as [|e es IH]; intros elf a name Ha Hfit Hname.
  - destruct elf as [fh sh sg [sy] [ds] st so]. simpl.
    rewrite !app_nil_r, Z.add_0_r. reflexivity.
  - pose proof (code_size_nonneg e) as Hc.
    pose proof (total_code_size_nonneg es) as Ht.
    change (total_code_size (e :: es)) with (code_size e + total_code_size es) in *.
    cbn [fold_left]. unfold symbol_step at 2.
    cbn [StringTable.insert set_dynstr set_dynsym dynstr dynsym SymbolTable.insert].
    rewrite !wrap64_small by lia.
    rewrite (IH _ (a + code_size e)
               (name + Z.of_nat (length (list_byte_of_string (func_name e) ++ [x00]))));
      [ | lia | lia | ].
    + cbn [file_header section_headers segment_headers dynsym dynstr shstrtab
           section_offset SymbolTable.syms StringTable.bytes symbols_at
           set_dynstr set_dynsym SymbolTable.insert Symbol.other Symbol.zero].
      subst name. unfold names_bytes. cbn [map concat].
      rewrite <- !app_assoc. cbn [app].
      f_equal. lia.
    + cbn [dynstr StringTable.bytes set_dynsym set_dynstr]. subst name.
      rewrite (length_app (StringTable.bytes _)). lia.
Qed.

Lemma symbols_at_length entries : forall a n, length (symbols_at a n entries) = length entries.
Proof. induction entries as [|e es IH]; intros a n; cbn [symbols_at length]; [reflexivity|]. rewrite IH. reflexivity. Qed.

Lemma page_round_bounds n : 0 <= n -> n <= page_round n < n + 4096 /\ page_round n mod 4096 = 0.
Proof.
  intros Hn. unfold page_round, kPageSize.
  pose proof (Z.div_mod (n + (4096 - 1)) 4096 ltac:(lia)) as Hd.
  pose proof (Z.mod_pos_bound (n + (4096 - 1)) 4096 ltac:(lia)) as Hm.
  split; [lia|]. rewrite Z.mul_comm. apply Z.mod_mul. lia.
Qed.

Lemma alignUp_text_end n :
  0 <= n -> kTextStartAddress + page_round n < 2 ^ 64 ->
  alignUp (kTextStartAddress + n) = kTextStartAddress + page_round n.
Proof.
  intros Hn Hfit. pose proof (page_round_bounds n Hn) as [Hb _].
  unfold page_round, kTextStartAddress, kPageSize in *.
  set (q := (n + (4096 - 1)) / 4096) in *.
  change (2 ^ 64) with (4096 * 4503599627370496) in Hfit.
  rewrite alignUp_small; [ | lia | change (2 ^ 64) with (4096 * 4503599627370496); lia ].
  replace (4096 + n + 4095) with (1 * 4096 + (n + (4096 - 1))) by lia.
  rewrite Z.div_add_l by lia. fold q. lia.
Qed.

Lemma dynsym_bytes_size a n entries :
  Z.of_nat (length (SymbolTable.bytes
     {| SymbolTable.syms := [Symbol.zero] ++ symbols_at a n entries |})) =
  dynsym_size entries.
Proof.
  rewrite SymbolTable_bytes_length. cbn [SymbolTable.syms].
  rewrite length_app, symbols_at_length. unfold dynsym_size. cbn [length]. lia.
Qed.

Lemma dynstr_bytes_size entries :
  Z.of_nat (length ([x00] ++ names_bytes entries)) = dynstr_size entries.
Proof. unfold dynstr_size. rewrite length_app. cbn [length]. lia. Qed.

(** Every check passes and the workspace is [layout_of entries]. *)
Lemma writeEntries_layout_ok entries :
  headers_fit -> object_fits entries ->
  writeEntries_layout entries =
  Ok (layout_of entries, header_padding_of, text_padding_of entries).
Proof.
  intros Hh Hfit.
  unfold object_fits, object_end, shstrtab_offset, dynstr_offset, dynsym_offset in Hfit.
  change (Z.of_nat (length shstrtab_bytes)) with 33 in Hfit.
  pose proof (total_code_size_nonneg entries) as Ht.
  pose proof (page_round_bounds _ Ht) as [Hp _].
  assert (Hs : 0 < dynsym_size entries) by (unfold dynsym_size, Symbol.sizeof; lia).
  assert (Hd : 0 < dynstr_size entries) by (unfold dynstr_size; lia).
  assert (Hk : kTextStartAddress = 4096) by reflexivity.
  unfold writeEntries_layout.
  rewrite (symbol_loop entries _ kTextStartAddress 1); [ | lia | lia | reflexivity ].
  replace (kTextStartAddress + total_code_size entries - kTextStartAddress)
    with (total_code_size entries) by lia.
  rewrite (wrap64_small (total_code_size entries)) by lia.
  run_layout. rewrite Hh, Z.eqb_refl. run_layout.
  change (isAligned kTextStartAddress) with true. run_layout.
  rewrite isAligned_alignUp. run_layout.
  rewrite (wrap64_small (kTextStartAddress + total_code_size entries)) by lia.
  rewrite alignUp_text_end by lia.
  rewrite !dynsym_bytes_size, !dynstr_bytes_size.
  rewrite (wrap64_small (dynsym_size entries)) by lia.
  rewrite (wrap64_small (dynstr_size entries)) by lia.
  rewrite (wrap64_small (_ + dynsym_size entries)) by lia.
  rewrite (wrap64_small (_ + dynstr_size entries)) by lia.
  rewrite (wrap64_small (dynsym_size entries + dynstr_size entries)) by lia.
  replace (_ <? _) with true by (symmetry; apply Z.ltb_lt; lia).
  cbv iota beta.
  set (n := wrap64 (Z.of_nat (length (_ ++ list_byte_of_string ".shstrtab" ++ _)))).
  change n with 33. clear n.
  rewrite (wrap64_small (_ + 33)) by lia.
  unfold text_padding_of.
  rewrite (wrap64_small (_ + page_round _ - _)) by lia.
  unfold layout_of, header_padding_of, object_end, shstrtab_offset, dynstr_offset, dynsym_offset.
  f_equal. f_equal. all: lia.
Qed.

Lemma symbols_at_lookup entries : forall a n i entry,
  entries !! i = Some entry ->
  exists sym, symbols_at a n entries !! i = Some sym /\
    Symbol.info sym = Z.lor kGlobal kFunc /\
    Symbol.section_index sym = Z.of_nat (SectionIdx.raw SectionIdx.kText) /\
    Symbol.address sym = a + total_code_size (take i entries) /\
    Symbol.size sym = code_size entry.
Proof.
  induction entries as [|e es IH]; intros a n i entry Hi; [discriminate|].
  destruct i as [|i].
  - cbn in Hi. inversion Hi; subst e. eexists. split; [reflexivity|].
    cbn [Symbol.info Symbol.section_index Symbol.address Symbol.size take total_code_size fold_right].
    repeat split; lia.
  - cbn [lookup list_lookup] in Hi. cbn [symbols_at].
    destruct (IH (a + code_size e)
                (n + Z.of_nat (length (list_byte_of_string (func_name e) ++ [x00]))) i entry Hi)
      as (sym & Hs & H1 & H2 & H3 & H4).
    exists sym. split; [exact Hs|]. repeat split; try assumption.
    rewrite H3. cbn [take]. change (total_code_size (e :: take i es))
      with (code_size e + total_code_size (take i es)). lia.
Qed.

Lemma symbol_loop_end entries :
  kTextStartAddress + total_code_size entries < 2 ^ 64 ->
  snd (fold_left symbol_step entries (initFileHeader Object_new, kTextStartAddress)) =
  kTextStartAddress + total_code_size entries.
Proof.
  intros H. rewrite (symbol_loop entries _ kTextStartAddress 1);
    [reflexivity | unfold kTextStartAddress, kPageSize; lia | exact H | reflexivity].
Qed.

Lemma object_fits_code entries :
  object_fits entries -> kTextStartAddress + total_code_size entries < 2 ^ 64.
Proof.
  unfold object_fits, object_end, shstrtab_offset, dynstr_offset, dynsym_offset,
    dynstr_size, dynsym_size, Symbol.sizeof.
  pose proof (page_round_bounds _ (total_code_size_nonneg entries)) as [Hp _]. lia.
Qed.

Lemma total_code_size_concat entries :
  total_code_size entries = Z.of_nat (length (concat (map code entries))).
Proof.
  induction entries as [|e es IH]; [reflexivity|].
  cbn [map concat]. rewrite length_app, Nat2Z.inj_add, <- IH. reflexivity.
Qed.

Lemma initReadonlySegment_order elf :
  ~ SectionHeader.address (getSectionHeader elf SectionIdx.kDynsym)
    < SectionHeader.address (getSectionHeader elf SectionIdx.kDynstr) ->
  initReadonlySegment elf = Abort SectionOrder.
Proof.
  intros H. unfold initReadonlySegment. apply Z.ltb_nlt in H. rewrite H. reflexivity.
Qed.


Lemma writeEntries_layout_abort_headers entries :
  alignUp offsetof_header_stop <> kTextStartAddress ->
  writeEntries_layout entries = Abort (HeadersTooBig (alignUp offsetof_header_stop)).
Proof.
  intros H. unfold writeEntries_layout.
  destruct (fold_left symbol_step entries _) as [elf t].
  cbn [alignOffset set_section_offset section_offset].
  apply Z.eqb_neq in H. rewrite H. reflexivity.
Qed.

Lemma writeEntries_layout_headers entries elf hp tp :
  writeEntries_layout entries = Ok (elf, hp, tp) ->
  alignUp offsetof_header_stop = kTextStartAddress.
Proof.
  intros H. destruct (Z.eq_dec (alignUp offsetof_header_stop) kTextStartAddress) as [E|E];
    [exact E|].
  rewrite writeEntries_layout_abort_headers in H by exact E. discriminate.
Qed.

(** The header check passes exactly when the header region is not empty and
    ends in the first page. *)
Lemma headers_fit_iff :
  0 <= offsetof_header_stop < 2 ^ 64 - 4095 ->
  headers_fit <-> 0 < offsetof_header_stop <= kPageSize.
Proof.
  intros Hr. unfold headers_fit, kTextStartAddress, kPageSize.
  rewrite alignUp_small by lia.
  pose proof (Z.div_mod (offsetof_header_stop + 4095) 4096 ltac:(lia)) as Hd.
  pose proof (Z.mod_pos_bound (offsetof_header_stop + 4095) 4096 ltac:(lia)) as Hm.
  split; intros H; [lia|].
  assert ((offsetof_header_stop + 4095) / 4096 = 1); [ | lia ].
  symmetry. apply (Z.div_unique _ _ 1 (offsetof_header_stop - 1)); lia.
Qed.

(** The addresses of the symbols are sorted. *)

Lemma symbols_at_addresses_ge entries : forall a n,
  Forall (fun x => a <= x) (map Symbol.address (symbols_at a n entries)).
Proof.
  induction entries as [|e es IH]; intros a n; cbn [symbols_at map]; constructor.
  - cbn. lia.
  - pose proof (IH (a + code_size e)
      (n + Z.of_nat (length (list_byte_of_string (func_name e) ++ [x00])))) as Hge.
    rewrite List.Forall_forall in Hge. rewrite List.Forall_forall. intros x Hx.
    specialize (Hge x Hx). pose proof (code_size_nonneg e). lia.
Qed.

Lemma symbols_at_sorted_le entries : forall a n,
  StronglySorted Z.le (map Symbol.address (symbols_at a n entries)).
Proof.
  induction entries as [|e es IH]; intros a n; cbn [symbols_at map]; constructor.
  - apply IH.
  - cbn [Symbol.address]. rewrite List.Forall_forall. intros x Hx.
    pose proof (symbols_at_addresses_ge es (a + code_size e)
      (n + Z.of_nat (length (list_byte_of_string (func_name e) ++ [x00])))) as Hge.
    rewrite List.Forall_forall in Hge. specialize (Hge x Hx).
    pose proof (code_size_nonneg e). lia.
Qed.

Lemma symbols_at_sorted_lt entries : forall a n,
  List.Forall (fun entry => code entry <> []) (removelast entries) ->
  StronglySorted Z.lt (map Symbol.address (symbols_at a n entries)).
Proof.
  induction entries as [|e es IH]; intros a n Hne; cbn [symbols_at map]; constructor.
  - apply IH. destruct es as [|e' es']; [constructor|].
    cbn [removelast] in Hne. inversion Hne; assumption.
  - cbn [Symbol.address]. destruct es as [|e' es']; [constructor|].
    cbn [removelast] in Hne. inversion Hne as [|? ? He _]; subst.
    rewrite List.Forall_forall. intros x Hx.
    pose proof (symbols_at_addresses_ge (e' :: es') (a + code_size e)
      (n + Z.of_nat (length (list_byte_of_string (func_name e) ++ [x00])))) as Hge.
    rewrite List.Forall_forall in Hge. specialize (Hge x Hx).
    assert (0 < code_size e); [ | lia ].
    unfold code_size. destruct (code e); [congruence | cbn [length]; lia ].
Qed.

(** The name offset of a symbol is where the name of its entry starts in the
    symbol-name table. *)

Lemma symbols_at_names entries : forall a before i entry,
  Z.of_nat (length (before ++ names_bytes entries)) < 2 ^ 32 ->
  entries !! i = Some entry ->
  exists sym,
    symbols_at a (Z.of_nat (length before)) entries !! i = Some sym /\
    placed_at (before ++ names_bytes entries)
      (list_byte_of_string (func_name entry) ++ [x00]) (Symbol.name_offset sym).
Proof.
  induction entries as [|e es IH]; intros a before i entry Hlen Hi; [discriminate|].
  unfold names_bytes in *. cbn [map concat] in *. fold (names_bytes es) in *.
  destruct i as [|i].
  - cbn in Hi. inversion Hi; subst e. eexists. split; [reflexivity|].
    cbn [Symbol.name_offset]. exists before, (names_bytes es).
    split; [rewrite <- app_assoc; reflexivity|].
    rewrite length_app in Hlen. rewrite wrap32_small by lia. reflexivity.
  - cbn [lookup list_lookup] in Hi. cbn [symbols_at].
    set (name := list_byte_of_string (func_name e) ++ [x00]) in *.
    destruct (IH (a + code_size e) (before ++ name) i entry) as (sym & Hs & Hp).
    + rewrite <- app_assoc. exact Hlen.
    + exact Hi.
    + exists sym. split.
      * rewrite length_app, Nat2Z.inj_add in Hs. exact Hs.
      * rewrite <- app_assoc in Hp. exact Hp.
Qed.

Lemma symbol_names entries :
  headers_fit -> object_fits entries -> dynstr_size entries < 2 ^ 32 ->
  exists elf header_padding text_padding,
    writeEntries_layout entries = Ok (elf, header_padding, text_padding) /\
    forall i entry, entries !! i = Some entry ->
      exists sym, entry_symbols elf !! i = Some sym /\
        placed_at (StringTable.bytes (dynstr elf))
          (list_byte_of_string (func_name entry) ++ [x00]) (Symbol.name_offset sym).
Proof.
  intros Hh Hfit Hn. exists (layout_of entries), header_padding_of, (text_padding_of entries).
  split; [apply writeEntries_layout_ok; assumption|].
  intros i entry Hi.
  apply (symbols_at_names entries kTextStartAddress [x00] i entry); [ | exact Hi ].
  rewrite dynstr_bytes_size. exact Hn.
Qed.

(** The file header records five sections, two segments and the index of
    the section of section names. *)

Lemma file_header_counts entries :
  headers_fit -> object_fits entries ->
  exists elf header_padding text_padding,
    writeEntries_layout entries = Ok (elf, header_padding, text_padding) /\
    FileHeader.section_header_count (file_header elf) = 5 /\
    FileHeader.segment_header_count (file_header elf) = 2 /\
    FileHeader.section_name_index (file_header elf) = 4 /\
    FileHeader.section_header_offset (file_header elf) = offsetof_section_headers /\
    FileHeader.segment_header_offset (file_header elf) = offsetof_segment_headers.
Proof.
  intros Hh Hfit. exists (layout_of entries), header_padding_of, (text_padding_of entries).
  split; [apply writeEntries_layout_ok; assumption|]. repeat split.
Qed.

End LayoutProperties.

(** ** The stream *)

Lemma good_true os : good os = true -> badbit os = false /\ failbit os = false.
Proof. unfold good. destruct (badbit os), (failbit os); simpl; intros H; try discriminate; auto. Qed.

Lemma accept_nil os : good os = true -> ostream_accept os [] = os.
Proof.
  intros [Hb Hf]%good_true. destruct os as [w r b f]. simpl in *. subst.
  unfold ostream_accept. simpl. rewrite app_nil_r, N.sub_0_r. reflexivity.
Qed.

Lemma accept_app os a b :
  ostream_accept (ostream_accept os a) b = ostream_accept os (a ++ b).
Proof.
  unfold ostream_accept. simpl. rewrite app_assoc, length_app. f_equal. lia.
Qed.

Lemma accept_good os data : good (ostream_accept os data) = true.
Proof. reflexivity. Qed.

Lemma ostream_write_fits os data :
  good os = true -> (N.of_nat (length data) <= room os)%N ->
  ostream_write os data = ostream_accept os data.
Proof.
  intros Hg Hr. unfold ostream_write. rewrite Hg.
  apply N.leb_le in Hr. rewrite Hr. reflexivity.
Qed.

Lemma ostream_write_overflow os data :
  good os = true -> (room os < N.of_nat (length data))%N ->
  bad (ostream_write os data) = true.
Proof.
  intros Hg Hr. unfold ostream_write. rewrite Hg.
  apply N.leb_gt in Hr. rewrite Hr. reflexivity.
Qed.

Lemma ostream_write_bad os data : bad os = true -> bad (ostream_write os data) = true.
Proof.
  intros Hb. unfold ostream_write, good, bad in *. rewrite Hb. reflexivity.
Qed.
Ltac room_tac :=
  cbn [ostream_accept room]; unfold zeros; rewrite ?length_replicate; lia.

Section StreamProperties.
Context `{K : ElfH}.

Lemma write_fits os data :
  good os = true -> (N.of_nat (length data) <= room os)%N ->
  write os data = Ok (ostream_accept os data).
Proof. intros Hg Hr. unfold write. rewrite ostream_write_fits by assumption. reflexivity. Qed.

(** [write] aborts as soon as the stream is bad after its [os.write]. *)
Lemma write_abort os data :
  bad (ostream_write os data) = true ->
  write os data = Abort (WriteFailed (Z.of_nat (length data))).
Proof. intros Hb. unfold write. rewrite Hb. reflexivity. Qed.

Lemma write_Ok_inv os data os' :
  good os = true -> write os data = Ok os' ->
  (N.of_nat (length data) <= room os)%N /\ os' = ostream_accept os data.
Proof.
  intros Hg Hw. destruct (N.le_gt_cases (N.of_nat (length data)) (room os)) as [Hr | Hr].
  - rewrite write_fits in Hw by assumption. inversion Hw. auto.
  - rewrite write_abort in Hw by (apply ostream_write_overflow; assumption). discriminate.
Qed.

Lemma pad_fits size : forall os,
  good os = true -> (N.of_nat size <= room os)%N ->
  pad os size = ostream_accept os (zeros size).
Proof.
  induction size as [|n IH]; intros os Hg Hr.
  - cbn [pad zeros replicate]. symmetry. apply accept_nil. exact Hg.
  - cbn [pad]. unfold ostream_put. rewrite ostream_write_fits by (cbn [length]; lia || assumption).
    rewrite IH; [ | apply accept_good | cbn [ostream_accept room length]; lia ].
    rewrite accept_app. reflexivity.
Qed.

Lemma pad_bad size : forall os, bad os = true -> bad (pad os size) = true.
Proof.
  induction size as [|n IH]; intros os Hb; cbn [pad]; [exact Hb|].
  apply IH. apply ostream_write_bad. exact Hb.
Qed.

(** [pad] on a sink without room leaves the stream bad, and returns. *)
Lemma pad_overflow size : forall os,
  good os = true -> (room os < N.of_nat size)%N -> bad (pad os size) = true.
Proof.
  induction size as [|n IH]; intros os Hg Hr; [lia|].
  cbn [pad]. unfold ostream_put.
  destruct (N.le_gt_cases 1 (room os)) as [H1 | H1].
  - rewrite ostream_write_fits by (cbn [length]; assumption || lia).
    apply IH; [apply accept_good | cbn [ostream_accept room length]; lia].
  - apply pad_bad. apply ostream_write_overflow; [assumption | cbn [length]; lia].
Qed.

Lemma write_codes_fits entries : forall os,
  good os = true -> (N.of_nat (length (concat (map code entries))) <= room os)%N ->
  write_codes os entries = Ok (ostream_accept os (concat (map code entries))).
Proof.
  induction entries as [|e es IH]; intros os Hg Hr.
  - cbn [write_codes map concat]. rewrite accept_nil by assumption. reflexivity.
  - cbn [map concat] in *. rewrite length_app in Hr. cbn [write_codes].
    rewrite write_fits by (assumption || lia). cbn [bind].
    rewrite IH; [ | apply accept_good | cbn [ostream_accept room]; lia ].
    rewrite accept_app. reflexivity.
Qed.

Lemma write_codes_bad entries : forall os,
  bad os = true -> forall os', write_codes os entries = Ok os' -> entries = [] /\ os' = os.
Proof.
  destruct entries as [|e es]; intros os Hb os' H.
  - inversion H. auto.
  - cbn [write_codes] in H. rewrite write_abort in H by (apply ostream_write_bad; exact Hb).
    discriminate.
Qed.

Lemma write_codes_Ok_inv entries : forall os os',
  good os = true -> write_codes os entries = Ok os' ->
  (N.of_nat (length (concat (map code entries))) <= room os)%N /\
  os' = ostream_accept os (concat (map code entries)).
Proof.
  induction entries as [|e es IH]; intros os os' Hg H.
  - cbn [write_codes] in H. inversion H. subst os'. cbn [map concat length].
    rewrite accept_nil by assumption. split; [lia | reflexivity].
  - cbn [write_codes] in H.
    destruct (write os (code e)) as [os1|err] eqn:Hw; [ | discriminate ].
    cbn [bind] in H. apply write_Ok_inv in Hw as [Hr ->]; [ | assumption ].
    apply IH in H as [Hr' ->]; [ | apply accept_good ].
    cbn [map concat]. rewrite accept_app, length_app.
    cbn [ostream_accept room] in Hr'. split; [lia | reflexivity].
Qed.

Lemma writeEntries_emit_fits os entries elf hp tp :
  good os = true ->
  (N.of_nat (length (object_image entries elf hp tp)) <= room os)%N ->
  writeEntries_emit os entries elf hp tp =
  Ok (ostream_accept os (object_image entries elf hp tp)).
Proof.
  intros Hg Hr. unfold object_image in *. unfold writeEntries_emit.
  repeat rewrite length_app in Hr. unfold zeros in Hr. rewrite !length_replicate in Hr.
  set (n1 := Z.to_nat hp) in *. set (n2 := Z.to_nat tp) in *.
  rewrite write_fits by (assumption || lia). cbn [bind].
  rewrite write_fits by (apply accept_good || room_tac). cbn [bind].
  rewrite write_fits by (apply accept_good || room_tac). cbn [bind].
  rewrite pad_fits by (apply accept_good || room_tac).
  rewrite write_codes_fits by (apply accept_good || room_tac). cbn [bind].
  rewrite pad_fits by (apply accept_good || room_tac).
  rewrite write_fits by (apply accept_good || room_tac). cbn [bind].
  rewrite write_fits by (apply accept_good || room_tac). cbn [bind].
  rewrite write_fits by (apply accept_good || room_tac).
  rewrite !accept_app. reflexivity.
Qed.

Lemma pad_codes_write_room os size entries tp data os' :
  good os = true ->
  (do os1 <- write_codes (pad os size) entries;
   write (pad os1 tp) data) = Ok os' ->
  (N.of_nat size <= room os)%N.
Proof.
  intros Hg H. destruct (N.le_gt_cases (N.of_nat size) (room os)) as [Hr | Hr]; [exact Hr|].
  exfalso. pose proof (pad_overflow size os Hg Hr) as Hb.
  destruct (write_codes (pad os size) entries) as [os1|e] eqn:Hc; [ | discriminate ].
  apply write_codes_bad in Hc as [_ ->]; [ | exact Hb ].
  cbn [bind] in H. rewrite write_abort in H; [discriminate|].
  apply ostream_write_bad, pad_bad, Hb.
Qed.

Lemma pad_write_room os size data os' :
  good os = true -> write (pad os size) data = Ok os' -> (N.of_nat size <= room os)%N.
Proof.
  intros Hg H. destruct (N.le_gt_cases (N.of_nat size) (room os)) as [Hr | Hr]; [exact Hr|].
  exfalso. rewrite write_abort in H; [discriminate|].
  apply ostream_write_bad, pad_overflow; assumption.
Qed.

Lemma writeEntries_emit_Ok_inv os entries elf hp tp os' :
  good os = true ->
  writeEntries_emit os entries elf hp tp = Ok os' ->
  (N.of_nat (length (object_image entries elf hp tp)) <= room os)%N /\
  os' = ostream_accept os (object_image entries elf hp tp).
Proof.
  intros Hg H.
  assert (Hr : (N.of_nat (length (object_image entries elf hp tp)) <= room os)%N).
  { unfold writeEntries_emit in H. unfold object_image.
    repeat rewrite length_app. unfold zeros. rewrite !length_replicate.
    destruct (write os _) as [os1|] eqn:H1; [ | discriminate ]. cbn [bind] in H.
    apply write_Ok_inv in H1 as [R1 ->]; [ | assumption ].
    destruct (write _ _) as [os2|] eqn:H2 in H; [ | discriminate ]. cbn [bind] in H.
    apply write_Ok_inv in H2 as [R2 ->]; [ | apply accept_good ].
    destruct (write _ _) as [os3|] eqn:H3 in H; [ | discriminate ]. cbn [bind] in H.
    apply write_Ok_inv in H3 as [R3 ->]; [ | apply accept_good ].
    cbn [ostream_accept room] in R2, R3.
    destruct (write_codes _ entries) as [os4|] eqn:H4 in H; [ | discriminate ]. cbn [bind] in H.
    destruct (write (pad os4 _) _) as [os5|] eqn:H5 in H; [ | discriminate ]. cbn [bind] in H.
    assert (R4 : (N.of_nat (Z.to_nat hp) <= room
        (ostream_accept (ostream_accept (ostream_accept os
           (FileHeader.bytes (file_header elf)))
           (concat (map SectionHeader.bytes (section_headers elf))))
           (concat (map SegmentHeader.bytes (segment_headers elf)))))%N).
    { eapply (pad_codes_write_room _ _ entries (Z.to_nat tp)); [apply accept_good|].
      rewrite H4. cbn [bind]. exact H5. }
    rewrite pad_fits in H4 by (apply accept_good || exact R4).
    apply write_codes_Ok_inv in H4 as [R5 ->]; [ | apply accept_good ].
    cbn [ostream_accept room] in R5.
    pose proof (pad_write_room _ _ _ _ (accept_good _ _) H5) as R6.
    cbn [ostream_accept room] in R6.
    rewrite pad_fits in H5 by (apply accept_good || exact R6).
    apply write_Ok_inv in H5 as [R7 ->]; [ | apply accept_good ].
    destruct (write _ _) as [os6|] eqn:H6 in H; [ | discriminate ]. cbn [bind] in H.
    apply write_Ok_inv in H6 as [R8 ->]; [ | apply accept_good ].
    apply write_Ok_inv in H as [R9 ->]; [ | apply accept_good ].
    cbn [ostream_accept room] in *. unfold zeros in *.
    rewrite ?length_replicate in *. lia. }
  split; [exact Hr|].
  rewrite writeEntries_emit_fits in H by assumption. inversion H. reflexivity.
Qed.

Lemma writeEntries_fits entries os :
  headers_fit -> object_fits entries -> good os = true ->
  object_size entries <= Z.of_N (room os) ->
  writeEntries os entries =
  Ok (ostream_accept os (object_image entries (layout_of entries) header_padding_of
                           (text_padding_of entries))).
Proof.
  intros Hh Hfit Hg Hr. unfold writeEntries.
  rewrite writeEntries_layout_ok by assumption. cbn [bind].
  apply writeEntries_emit_fits; [exact Hg|]. unfold object_size in Hr. lia.
Qed.

(** No partial success: a run on a good stream that returns has written
    the whole object. *)
Lemma writeEntries_Ok_inv entries os os' :
  good os = true -> writeEntries os entries = Ok os' ->
  exists elf hp tp,
    writeEntries_layout entries = Ok (elf, hp, tp) /\
    (N.of_nat (length (object_image entries elf hp tp)) <= room os)%N /\
    os' = ostream_accept os (object_image entries elf hp tp).
Proof.
  intros Hg H. unfold writeEntries in H.
  destruct (writeEntries_layout entries) as [[[elf hp] tp]|e]; [ | discriminate ].
  cbn [bind] in H. exists elf, hp, tp. split; [reflexivity|].
  apply writeEntries_emit_Ok_inv; assumption.
Qed.

(** A stream that has failed before the call takes nothing and stays as it
    is: [bad] does not see [failbit]. *)

Lemma ostream_write_failed os data :
  badbit os = false -> failbit os = true -> ostream_write os data = os.
Proof.
  intros Hb Hf. unfold ostream_write, good. rewrite Hb, Hf. cbn.
  destruct os; cbn in *; subst; reflexivity.
Qed.

Lemma write_failed os data :
  badbit os = false -> failbit os = true -> write os data = Ok os.
Proof.
  intros Hb Hf. unfold write. rewrite ostream_write_failed by assumption.
  unfold bad. rewrite Hb. reflexivity.
Qed.

Lemma pad_failed size os :
  badbit os = false -> failbit os = true -> pad os size = os.
Proof.
  intros Hb Hf. induction size as [|n IH]; [reflexivity|].
  cbn [pad]. unfold ostream_put. rewrite ostream_write_failed by assumption. exact IH.
Qed.

Lemma write_codes_failed entries os :
  badbit os = false -> failbit os = true -> write_codes os entries = Ok os.
Proof.
  intros Hb Hf. induction entries as [|e es IH]; [reflexivity|].
  cbn [write_codes]. rewrite write_failed by assumption. exact IH.
Qed.

Lemma writeEntries_failed_stream entries os elf hp tp :
  badbit os = false -> failbit os = true ->
  writeEntries_layout entries = Ok (elf, hp, tp) ->
  writeEntries os entries = Ok os.
Proof.
  intros Hb Hf HL. unfold writeEntries, writeEntries_emit. rewrite HL. cbn [bind].
  repeat (rewrite ?write_failed, ?pad_failed, ?write_codes_failed by assumption; cbn [bind]).
  reflexivity.
Qed.

(** Every section is in the object at the offset its header gives. *)

Lemma FileHeader_bytes_length_ident h :
  length (FileHeader.bytes h) = (length (FileHeader.ident h) + 48)%nat.
Proof. unfold FileHeader.bytes. rewrite length_app. reflexivity. Qed.

Lemma headers_exact_fit : headers_exact -> headers_fit.
Proof.
  intros [He Hle]. apply headers_fit_iff.
  - unfold kPageSize in Hle. change (2 ^ 64) with 18446744073709551616. 
    unfold SectionIdx.kTotal, SegmentIdx.kTotal in He. lia.
  - unfold SectionIdx.kTotal, SegmentIdx.kTotal in He. lia.
Qed.

Lemma header_region_length entries :
  headers_exact ->
  Z.of_nat (length (FileHeader.bytes (file_header (layout_of entries))
            ++ concat (map SectionHeader.bytes (section_headers (layout_of entries)))
            ++ concat (map SegmentHeader.bytes (segment_headers (layout_of entries)))
            ++ zeros (Z.to_nat header_padding_of))) = kTextStartAddress.
Proof.
  intros [He Hle]. rewrite !length_app.
  rewrite FileHeader_bytes_length_ident in *.
  change (length (concat (map SectionHeader.bytes (section_headers (layout_of entries)))))
    with 320%nat.
  change (length (concat (map SegmentHeader.bytes (segment_headers (layout_of entries)))))
    with 112%nat.
  unfold zeros. rewrite length_replicate.
  cbn [layout_of file_header initFileHeader set_file_header Object_new FileHeader.ident].
  unfold header_padding_of, kTextStartAddress, kPageSize, SectionIdx.kTotal, SegmentIdx.kTotal in *.
  rewrite wrap64_small by (change (2 ^ 64) with 18446744073709551616; lia).
  lia.
Qed.

Lemma sections_in_place entries :
  headers_exact -> object_fits entries ->
  let elf := layout_of entries in
  let image := object_image entries elf header_padding_of (text_padding_of entries) in
  section_in_image image (getSectionHeader elf SectionIdx.kText)
    (concat (map code entries)) /\
  section_in_image image (getSectionHeader elf SectionIdx.kDynsym)
    (SymbolTable.bytes (dynsym elf)) /\
  section_in_image image (getSectionHeader elf SectionIdx.kDynstr)
    (StringTable.bytes (dynstr elf)) /\
  section_in_image image (getSectionHeader elf SectionIdx.kShstrtab)
    (StringTable.bytes (shstrtab elf)) /\
  Z.of_nat (length image) = object_end entries.
Proof.
  intros Hx Hfit. cbv zeta.
  set (elf := layout_of entries).
  set (image := object_image entries elf header_padding_of (text_padding_of entries)).
  pose proof (header_region_length entries Hx) as Hhead.
  pose proof (total_code_size_nonneg entries) as Ht.
  pose proof (page_round_bounds _ Ht) as [Hp _].
  pose proof (total_code_size_concat entries) as Hc.
  pose proof (dynsym_bytes_size kTextStartAddress 1 entries) as Hsym.
  pose proof (dynstr_bytes_size entries) as Hstr.
  set (head := FileHeader.bytes (file_header elf)
            ++ concat (map SectionHeader.bytes (section_headers elf))
            ++ concat (map SegmentHeader.bytes (segment_headers elf))
            ++ zeros (Z.to_nat header_padding_of)) in *.
  change (Z.of_nat (length head) = kTextStartAddress) in Hhead.
  assert (Himg : image = head ++ concat (map code entries)
                 ++ zeros (Z.to_nat (text_padding_of entries))
                 ++ SymbolTable.bytes (dynsym elf) ++ StringTable.bytes (dynstr elf)
                 ++ StringTable.bytes (shstrtab elf)).
  { unfold image, object_image, head. rewrite <- !app_assoc. reflexivity. }
  assert (Hpad : Z.of_nat (length (zeros (Z.to_nat (text_padding_of entries))))
                 = page_round (total_code_size entries) - total_code_size entries).
  { unfold zeros. rewrite length_replicate. unfold text_padding_of. lia. }
  assert (Esym : SymbolTable.bytes (dynsym elf) =
                 SymbolTable.bytes
                   {| SymbolTable.syms :=
                        [Symbol.zero] ++ symbols_at kTextStartAddress 1 entries |})
    by reflexivity.
  assert (Estr : StringTable.bytes (dynstr elf) = [x00] ++ names_bytes entries)
    by reflexivity.
  unfold section_in_image. split; [split|]; [ | | split; [split|]; [ | | split; [split|];
    [ | | split; [split|] ] ] ].
  - exists head. eexists. split; [exact Himg | exact Hhead].
  - exact Hc.
  - exists (head ++ concat (map code entries) ++ zeros (Z.to_nat (text_padding_of entries))).
    eexists. split; [rewrite Himg, <- !app_assoc; reflexivity|].
    rewrite !length_app.
    change (SectionHeader.offset _) with (dynsym_offset entries).
    unfold dynsym_offset. lia.
  - change (SectionHeader.size _) with (dynsym_size entries). rewrite Esym. lia.
  - exists (head ++ concat (map code entries) ++ zeros (Z.to_nat (text_padding_of entries))
            ++ SymbolTable.bytes (dynsym elf)).
    eexists. split; [rewrite Himg, <- !app_assoc; reflexivity|].
    rewrite !length_app, Esym.
    change (SectionHeader.offset _) with (dynstr_offset entries).
    unfold dynstr_offset, dynsym_offset. lia.
  - change (SectionHeader.size _) with (dynstr_size entries). rewrite Estr. lia.
  - exists (head ++ concat (map code entries) ++ zeros (Z.to_nat (text_padding_of entries))
            ++ SymbolTable.bytes (dynsym elf) ++ StringTable.bytes (dynstr elf)).
    exists []. split; [rewrite Himg, <- !app_assoc, app_nil_r; reflexivity|].
    rewrite !length_app, Esym, Estr.
    change (SectionHeader.offset _) with (shstrtab_offset entries).
    unfold shstrtab_offset, dynstr_offset, dynsym_offset. lia.
  - reflexivity.
  - rewrite Himg, !length_app, Esym, Estr.
    change (StringTable.bytes (shstrtab elf)) with shstrtab_bytes.
    unfold object_end, shstrtab_offset, dynstr_offset, dynsym_offset. lia.
Qed.

End StreamProperties.

(** * The claims *)

Section Claims.
Context `{K : ElfH}.

(** C1. When the header region fits the first page and the object fits
    64-bit offsets, [writeEntries] leaves the symbol table with the null
    symbol followed by exactly one symbol per entry, in input order; the
    symbol of the [i]-th entry has binding and type [kGlobal | kFunc],
    section index Text, address [0x1000] plus the code lengths of the entries
    before it, and the size of its code.  The first loop ends with the
    cumulative address at the base plus the sum of all code lengths, and the
    Text size is that address minus the base, the sum of the code lengths. *)
Theorem writeEntries_symbols (entries : list CodeEntry) :
  headers_fit -> object_fits entries ->
  exists elf header_padding text_padding,
    writeEntries_layout entries = Ok (elf, header_padding, text_padding) /\
    SymbolTable.syms (dynsym elf) = Symbol.zero :: entry_symbols elf /\
    length (entry_symbols elf) = length entries /\
    (forall i entry, entries !! i = Some entry ->
       exists sym, entry_symbols elf !! i = Some sym /\
         Symbol.info sym = Z.lor kGlobal kFunc /\
         Symbol.section_index sym = Z.of_nat (SectionIdx.raw SectionIdx.kText) /\
         Symbol.address sym = kTextStartAddress + total_code_size (take i entries) /\
         Symbol.size sym = code_size entry) /\
    kTextStartAddress = 0x1000 /\
    snd (fold_left symbol_step entries (initFileHeader Object_new, kTextStartAddress)) =
      kTextStartAddress + total_code_size entries /\
    SectionHeader.size (getSectionHeader elf SectionIdx.kText) =
      kTextStartAddress + total_code_size entries - kTextStartAddress /\
    SectionHeader.size (getSectionHeader elf SectionIdx.kText) = total_code_size entries.
Proof.
  intros Hh Hfit. exists (layout_of entries), header_padding_of, (text_padding_of entries).
  split; [apply writeEntries_layout_ok; assumption|].
  split; [reflexivity|].
  split; [apply symbols_at_length|].
  split; [intros i entry Hi; apply symbols_at_lookup; exact Hi|].
  split; [reflexivity|].
  split; [apply symbol_loop_end, object_fits_code, Hfit|].
  split; [cbn; lia | reflexivity].
Qed.

(** C2. On a good stream whose sink has room for the object, [writeEntries]
    appends to the stream, in this order and nothing else: the file header,
    the five section headers (the first all-zero), the two segment headers,
    the header padding, the code of every entry in input order, the text
    padding, the symbol table, the symbol-name table and the section-name
    table. *)
Theorem writeEntries_stream (entries : list CodeEntry) (os : ostream) :
  headers_fit -> object_fits entries ->
  good os = true -> object_size entries <= Z.of_N (room os) ->
  exists elf header_padding text_padding os',
    writeEntries_layout entries = Ok (elf, header_padding, text_padding) /\
    writeEntries os entries = Ok os' /\
    written os' =
      written os
      ++ FileHeader.bytes (file_header elf)
      ++ concat (map SectionHeader.bytes (section_headers elf))
      ++ concat (map SegmentHeader.bytes (segment_headers elf))
      ++ zeros (Z.to_nat header_padding)
      ++ concat (map code entries)
      ++ zeros (Z.to_nat text_padding)
      ++ SymbolTable.bytes (dynsym elf)
      ++ StringTable.bytes (dynstr elf)
      ++ StringTable.bytes (shstrtab elf) /\
    good os' = true /\
    length (section_headers elf) = 5%nat /\
    section_headers elf !! 0%nat = Some SectionHeader.zero /\
    SectionHeader.bytes SectionHeader.zero = zeros 64 /\
    length (segment_headers elf) = 2%nat /\
    header_padding = wrap64 (alignUp offsetof_header_stop - offsetof_header_stop) /\
    text_padding =
      wrap64 (alignUp (kTextStartAddress + total_code_size entries)
              - (kTextStartAddress + total_code_size entries)).
Proof.
  intros Hh Hfit Hg Hr.
  exists (layout_of entries), header_padding_of, (text_padding_of entries).
  eexists. split; [apply writeEntries_layout_ok; assumption|].
  split; [apply writeEntries_fits; assumption|].
  split; [reflexivity|]. split; [reflexivity|]. split; [reflexivity|].
  split; [reflexivity|]. split; [reflexivity|]. split; [reflexivity|].
  split; [unfold header_padding_of; rewrite Hh; reflexivity|].
  pose proof (total_code_size_nonneg entries) as Ht.
  pose proof (page_round_bounds _ Ht) as [Hp _].
  pose proof (object_fits_code entries Hfit) as Hc.
  assert (Hk : kTextStartAddress = 4096) by reflexivity.
  unfold object_fits, object_end, shstrtab_offset, dynstr_offset, dynsym_offset,
    dynstr_size, dynsym_size, Symbol.sizeof in Hfit.
  rewrite alignUp_text_end by lia. unfold text_padding_of.
  rewrite wrap64_small by lia. lia.
Qed.

(** C3. The Text section header [writeEntries] produces has type
    [kProgram], flags [kSectionAlloc | kSectionExecutable], alignment 16, a
    size equal to the sum of the code lengths, which is the number of code
    bytes written, and a file offset equal to its address and to [0x1000]. *)
Theorem text_section_header (entries : list CodeEntry) :
  headers_fit -> object_fits entries ->
  exists elf header_padding text_padding,
    writeEntries_layout entries = Ok (elf, header_padding, text_padding) /\
    let text := getSectionHeader elf SectionIdx.kText in
    SectionHeader.type text = kProgram /\
    SectionHeader.flags text = Z.lor kSectionAlloc kSectionExecutable /\
    SectionHeader.align text = 16 /\
    SectionHeader.size text = total_code_size entries /\
    SectionHeader.size text = Z.of_nat (length (concat (map code entries))) /\
    SectionHeader.offset text = SectionHeader.address text /\
    SectionHeader.offset text = 0x1000.
Proof.
  intros Hh Hfit. exists (layout_of entries), header_padding_of, (text_padding_of entries).
  split; [apply writeEntries_layout_ok; assumption|].
  cbv zeta. repeat split. apply total_code_size_concat.
Qed.

(** C4, as the code has it.  An entry without code is accepted and gets a
    symbol of size zero.  The addresses of the symbols of the entries never
    decrease in entry order, and they strictly increase when every entry but
    the last has code. *)
Theorem symbol_addresses_monotone (entries : list CodeEntry) :
  headers_fit -> object_fits entries ->
  exists elf header_padding text_padding,
    writeEntries_layout entries = Ok (elf, header_padding, text_padding) /\
    (forall i entry, entries !! i = Some entry -> code entry = [] ->
       exists sym, entry_symbols elf !! i = Some sym /\ Symbol.size sym = 0) /\
    StronglySorted Z.le (symbol_addresses elf) /\
    (List.Forall (fun entry => code entry <> []) (removelast entries) ->
     StronglySorted Z.lt (symbol_addresses elf)).
Proof.
  intros Hh Hfit. exists (layout_of entries), header_padding_of, (text_padding_of entries).
  split; [apply writeEntries_layout_ok; assumption|].
  split; [ | split; [apply symbols_at_sorted_le | apply symbols_at_sorted_lt] ].
  intros i entry Hi Hnil.
  destruct (symbols_at_lookup entries kTextStartAddress 1 i entry Hi)
    as (sym & Hs & _ & _ & _ & Hsize).
  exists sym. split; [exact Hs|]. rewrite Hsize. unfold code_size. rewrite Hnil. reflexivity.
Qed.

(** C6. The cursor set past the header region and aligned is
    [alignUp offsetof_header_stop].  When that is not the Text base address,
    [writeEntries] aborts with the headers-too-big message, a structural
    invariant violation, whatever the entries and the stream; a run that
    returns had the cursor at the Text base address. *)
Theorem headers_checked (entries : list CodeEntry) (os : ostream) :
  (forall elf,
     section_offset (snd (alignOffset (set_section_offset elf offsetof_header_stop))) =
     alignUp offsetof_header_stop) /\
  (alignUp offsetof_header_stop <> kTextStartAddress ->
     writeEntries os entries = Abort (HeadersTooBig (alignUp offsetof_header_stop)) /\
     kind_of (HeadersTooBig (alignUp offsetof_header_stop)) = StructuralInvariantViolation) /\
  (forall os', writeEntries os entries = Ok os' ->
     alignUp offsetof_header_stop = kTextStartAddress).
Proof.
  split; [intros elf; reflexivity|]. split.
  - intros H. unfold writeEntries. rewrite writeEntries_layout_abort_headers by exact H.
    split; reflexivity.
  - intros os' H. unfold writeEntries in H.
    destruct (writeEntries_layout entries) as [[[elf hp] tp]|e] eqn:E; [ | discriminate ].
    eapply writeEntries_layout_headers, E.
Qed.

(** C7. The Dynsym section header [writeEntries] produces has type
    [kSymbolTable], flags [kSectionAlloc | kSectionInfoLink], the index of
    Dynstr as link, 1 as info (index 0 of the table is the null symbol), the
    size of one Symbol record as entry size, and the length of the serialized
    symbol table as size. *)
Theorem dynsym_section_header (entries : list CodeEntry) :
  headers_fit -> object_fits entries ->
  exists elf header_padding text_padding,
    writeEntries_layout entries = Ok (elf, header_padding, text_padding) /\
    let header := getSectionHeader elf SectionIdx.kDynsym in
    SectionHeader.type header = kSymbolTable /\
    SectionHeader.flags header = Z.lor kSectionAlloc kSectionInfoLink /\
    SectionHeader.link header = Z.of_nat (SectionIdx.raw SectionIdx.kDynstr) /\
    SectionHeader.info header = 1 /\
    SymbolTable.syms (dynsym elf) !! 0%nat = Some Symbol.zero /\
    SectionHeader.entry_size header = Symbol.sizeof /\
    (forall sym, Z.of_nat (length (Symbol.bytes sym)) = Symbol.sizeof) /\
    SectionHeader.size header = Z.of_nat (length (SymbolTable.bytes (dynsym elf))).
Proof.
  intros Hh Hfit. exists (layout_of entries), header_padding_of, (text_padding_of entries).
  split; [apply writeEntries_layout_ok; assumption|].
  cbv zeta. repeat split.
  symmetry. apply (dynsym_bytes_size kTextStartAddress 1 entries).
Qed.

(** C8. The Readonly segment header [writeEntries] produces is loadable and
    readable, has the offset and the address of the Dynsym section, and
    [Dynsym.size + Dynstr.size] as file size and as memory size, with Dynsym
    strictly before Dynstr; on any workspace where Dynsym is not strictly
    before Dynstr, [initReadonlySegment] aborts with a structural invariant
    violation. *)
Theorem readonly_segment_header (entries : list CodeEntry) :
  headers_fit -> object_fits entries ->
  (exists elf header_padding text_padding,
     writeEntries_layout entries = Ok (elf, header_padding, text_padding) /\
     let readonly := getSegmentHeader elf SegmentIdx.kReadonly in
     let dynsym := getSectionHeader elf SectionIdx.kDynsym in
     let dynstr := getSectionHeader elf SectionIdx.kDynstr in
     SegmentHeader.type readonly = kLoadableSegment /\
     SegmentHeader.flags readonly = kSegmentReadable /\
     SegmentHeader.offset readonly = SectionHeader.offset dynsym /\
     SegmentHeader.address readonly = SectionHeader.address dynsym /\
     SegmentHeader.file_size readonly = SectionHeader.size dynsym + SectionHeader.size dynstr /\
     SegmentHeader.mem_size readonly = SectionHeader.size dynsym + SectionHeader.size dynstr /\
     SectionHeader.address dynsym < SectionHeader.address dynstr) /\
  (forall elf,
     ~ SectionHeader.address (getSectionHeader elf SectionIdx.kDynsym)
       < SectionHeader.address (getSectionHeader elf SectionIdx.kDynstr) ->
     initReadonlySegment elf = Abort SectionOrder /\
     kind_of SectionOrder = StructuralInvariantViolation).
Proof.
  intros Hh Hfit. split.
  - exists (layout_of entries), header_padding_of, (text_padding_of entries).
    split; [apply writeEntries_layout_ok; assumption|].
    cbv zeta. repeat split.
    cbn. unfold dynstr_offset, dynsym_size, Symbol.sizeof. lia.
  - intros elf H. split; [apply initReadonlySegment_order, H | reflexivity].
Qed.



End Claims.

(** C4, as stated, fails: two entries without code get the same address. *)
Lemma symbol_addresses_not_strict :
  exists elf header_padding text_padding,
    @writeEntries_layout elf64 zero_size_entries = Ok (elf, header_padding, text_padding) /\
    map Symbol.size (entry_symbols elf) = [0; 0] /\
    symbol_addresses elf = [0x1000; 0x1000] /\
    ~ StronglySorted Z.lt (symbol_addresses elf).
Proof.
  eexists _, _, _. split; [vm_compute; reflexivity|].
  split; [reflexivity|]. split; [reflexivity|].
  intros H. inversion H as [|? ? _ Hall]; subst. inversion Hall as [|? ? Hlt _]; subst. lia.
Qed.


(** ** Examples *)

(** The example of the design: foo of 16 bytes and bar of 32 bytes. *)
Example layout_foo_bar :
  exists elf header_padding text_padding,
    @writeEntries_layout elf64 ex_entries = Ok (elf, header_padding, text_padding) /\
    map (fun sym => (Symbol.address sym, Symbol.size sym)) (entry_symbols elf)
      = [(0x1000, 16); (0x1010, 32)] /\
    SectionHeader.size (getSectionHeader elf SectionIdx.kText) = 48 /\
    SectionHeader.offset (getSectionHeader elf SectionIdx.kText) = 0x1000 /\
    SectionHeader.offset (getSectionHeader elf SectionIdx.kDynsym) = 0x2000 /\
    length (section_headers elf) = 5%nat /\
    length (segment_headers elf) = 2%nat /\
    header_padding = 3600 /\ text_padding = 4048.
Proof. eexists _, _, _. split; [vm_compute; reflexivity|]. repeat split. Qed.

(** A stream that had failed before the call: nothing is written and
    [writeEntries] returns. *)
Example failed_stream_returns :
  @writeEntries elf64 (mkOstream [] 10000 false true) ex_entries =
  Ok (mkOstream [] 10000 false true).
Proof. vm_compute. reflexivity. Qed.

(** ** The claims at concrete inputs *)

Lemma elf64_headers_fit : @headers_fit elf64.
Proof. vm_compute. reflexivity. Defined.

Lemma elf64_headers_exact : @headers_exact elf64.
Proof. split; [reflexivity | vm_compute; discriminate]. Defined.

Lemma ex_entries_fit : object_fits ex_entries.
Proof. vm_compute. reflexivity. Defined.

Lemma writeEntries_symbols_witness :
  @headers_fit elf64 /\ object_fits ex_entries /\
  exists elf header_padding text_padding,
    @writeEntries_layout elf64 ex_entries = Ok (elf, header_padding, text_padding) /\
    length (entry_symbols elf) = 2%nat /\
    SectionHeader.size (getSectionHeader elf SectionIdx.kText) = 48.
Proof.
  split; [exact elf64_headers_fit|]. split; [exact ex_entries_fit|].
  destruct (@writeEntries_symbols elf64 ex_entries elf64_headers_fit ex_entries_fit)
    as (elf & hp & tp & HL & _ & Hn & _ & _ & _ & _ & Hs).
  exists elf, hp, tp. split; [exact HL|]. split; [exact Hn | exact Hs].
Defined.

Lemma writeEntries_stream_witness :
  @headers_fit elf64 /\ object_fits ex_entries /\
  good (ostream_new 10000) = true /\
  @object_size elf64 ex_entries <= Z.of_N (room (ostream_new 10000)) /\
  exists os', @writeEntries elf64 (ostream_new 10000) ex_entries = Ok os' /\ good os' = true.
Proof.
  assert (Hr : @object_size elf64 ex_entries <= Z.of_N (room (ostream_new 10000)))
    by (vm_compute; discriminate).
  split; [exact elf64_headers_fit|]. split; [exact ex_entries_fit|].
  split; [reflexivity|]. split; [exact Hr|].
  destruct (@writeEntries_stream elf64 ex_entries (ostream_new 10000)
              elf64_headers_fit ex_entries_fit eq_refl Hr)
    as (elf & hp & tp & os' & _ & HW & _ & Hg & _).
  exists os'. split; [exact HW | exact Hg].
Defined.

Lemma text_section_header_witness :
  @headers_fit elf64 /\ object_fits ex_entries /\
  exists elf header_padding text_padding,
    @writeEntries_layout elf64 ex_entries = Ok (elf, header_padding, text_padding) /\
    SectionHeader.size (getSectionHeader elf SectionIdx.kText) = 48 /\
    SectionHeader.offset (getSectionHeader elf SectionIdx.kText) = 0x1000.
Proof.
  split; [exact elf64_headers_fit|]. split; [exact ex_entries_fit|].
  destruct (@text_section_header elf64 ex_entries elf64_headers_fit ex_entries_fit)
    as (elf & hp & tp & HL & _ & _ & _ & Hs & _ & _ & Ho).
  exists elf, hp, tp. split; [exact HL|]. split; [exact Hs | exact Ho].
Defined.

Lemma symbol_addresses_monotone_witness :
  @headers_fit elf64 /\ object_fits ex_entries /\
  exists elf header_padding text_padding,
    @writeEntries_layout elf64 ex_entries = Ok (elf, header_padding, text_padding) /\
    StronglySorted Z.lt (symbol_addresses elf).
Proof.
  split; [exact elf64_headers_fit|]. split; [exact ex_entries_fit|].
  destruct (@symbol_addresses_monotone elf64 ex_entries elf64_headers_fit ex_entries_fit)
    as (elf & hp & tp & HL & _ & _ & Hlt).
  exists elf, hp, tp. split; [exact HL|]. apply Hlt.
  constructor; [discriminate | constructor].
Defined.

Lemma headers_checked_witness :
  alignUp (@offsetof_header_stop (elf64_with_header_stop 4097)) <> kTextStartAddress /\
  @writeEntries (elf64_with_header_stop 4097) (ostream_new 10000) ex_entries =
  Abort (HeadersTooBig 0x2000).
Proof.
  assert (H : alignUp (@offsetof_header_stop (elf64_with_header_stop 4097))
              <> kTextStartAddress)
    by (intros E; vm_compute in E; discriminate E).
  split; [exact H|].
  exact (proj1 (proj1 (proj2 (@headers_checked (elf64_with_header_stop 4097)
                                ex_entries (ostream_new 10000))) H)).
Defined.

Lemma dynsym_section_header_witness :
  @headers_fit elf64 /\ object_fits ex_entries /\
  exists elf header_padding text_padding,
    @writeEntries_layout elf64 ex_entries = Ok (elf, header_padding, text_padding) /\
    SectionHeader.link (getSectionHeader elf SectionIdx.kDynsym) = 3 /\
    SectionHeader.info (getSectionHeader elf SectionIdx.kDynsym) = 1.
Proof.
  split; [exact elf64_headers_fit|]. split; [exact ex_entries_fit|].
  destruct (@dynsym_section_header elf64 ex_entries elf64_headers_fit ex_entries_fit)
    as (elf & hp & tp & HL & _ & _ & Hl & Hi & _).
  exists elf, hp, tp. split; [exact HL|]. split; [exact Hl | exact Hi].
Defined.

Lemma readonly_segment_header_witness :
  @headers_fit elf64 /\ object_fits ex_entries /\
  exists elf header_padding text_padding,
    @writeEntries_layout elf64 ex_entries = Ok (elf, header_padding, text_padding) /\
    SegmentHeader.file_size (getSegmentHeader elf SegmentIdx.kReadonly) =
      SectionHeader.size (getSectionHeader elf SectionIdx.kDynsym)
      + SectionHeader.size (getSectionHeader elf SectionIdx.kDynstr).
Proof.
  split; [exact elf64_headers_fit|]. split; [exact ex_entries_fit|].
  destruct (proj1 (@readonly_segment_header elf64 ex_entries elf64_headers_fit ex_entries_fit))
    as (elf & hp & tp & HL & _ & _ & _ & _ & Hs & _).
  exists elf, hp, tp. split; [exact HL | exact Hs].
Defined.



(** * Further properties of [elf.cpp] *)

(** ** [alignUp], [isAligned] and [alignOffset] *)

(** X1. When the sum does not wrap around, [alignUp n] is the least multiple
    of the page size that is not below [n]: it is a multiple of [kPageSize],
    lies in [n, n + kPageSize), and is [n] itself when [n] is a multiple. *)
Theorem alignUp_rounds_up (n : Z) :
  0 <= n -> n + (kPageSize - 1) < 2 ^ 64 ->
  n <= alignUp n < n + kPageSize /\
  alignUp n mod kPageSize = 0 /\
  (n mod kPageSize = 0 -> alignUp n = n).
Proof.
  unfold kPageSize. intros H0 H1.
  pose proof (alignUp_small n H0 ltac:(lia)) as E.
  pose proof (Z.div_mod (n + 4095) 4096 ltac:(lia)) as Hd.
  pose proof (Z.mod_pos_bound (n + 4095) 4096 ltac:(lia)) as Hm.
  split; [lia|]. split; [apply alignUp_multiple|].
  intros Hn. apply alignUp_fixed; [ | exact Hn ].
  pose proof (Z.div_mod n 4096 ltac:(lia)) as Hn'. rewrite Hn in Hn'.
  change (2 ^ 64) with (4096 * 4503599627370496) in *. lia.
Qed.

(** X2. In the last page of the 64-bit range, above the last page boundary,
    the sum [n + mask] wraps around and [alignUp] returns 0, a value below
    its argument. *)
Theorem alignUp_wraps_to_zero (n : Z) :
  2 ^ 64 - kPageSize < n < 2 ^ 64 -> alignUp n = 0.
Proof.
  unfold kPageSize. intros H. rewrite alignUp_wrap.
  assert (E : wrap64 (n + 4095) = n + 4095 - 2 ^ 64).
  { unfold wrap64. symmetry. apply (Z.mod_unique _ _ 1); lia. }
  rewrite E. rewrite Z.mod_small by lia. lia.
Qed.

(** X3. For a 64-bit [n], [isAligned n] holds exactly when [n] is a multiple
    of the page size. *)
Theorem isAligned_iff (n : Z) :
  0 <= n < 2 ^ 64 -> isAligned n = true <-> n mod kPageSize = 0.
Proof.
  unfold kPageSize. intros Hr. unfold isAligned. rewrite Z.eqb_eq. split.
  - intros E. rewrite E. apply alignUp_multiple.
  - intros Hm. symmetry. apply alignUp_fixed; [ | exact Hm ].
    pose proof (Z.div_mod n 4096 ltac:(lia)) as Hn. rewrite Hm in Hn.
    change (2 ^ 64) with (4096 * 4503599627370496) in *. lia.
Qed.

(** X4. For every [n], aligning twice is aligning once, and [isAligned]
    accepts what [alignUp] returns. *)
Theorem alignUp_idempotent (n : Z) :
  alignUp (alignUp n) = alignUp n /\ isAligned (alignUp n) = true.
Proof.
  split; [ | apply isAligned_alignUp ].
  apply alignUp_fixed; [apply alignUp_range | apply alignUp_multiple].
Qed.

(** X5. When the cursor is at least a page below the end of the 64-bit range,
    [alignOffset] moves it forward by the padding it returns, which is less
    than a page and is 0 when the cursor was aligned already; the new cursor
    is aligned, and nothing else in the workspace changes. *)
Theorem alignOffset_advances (elf : Object) :
  0 <= section_offset elf -> section_offset elf + (kPageSize - 1) < 2 ^ 64 ->
  let delta := fst (alignOffset elf) in
  let elf' := snd (alignOffset elf) in
  0 <= delta < kPageSize /\
  section_offset elf' = section_offset elf + delta /\
  isAligned (section_offset elf') = true /\
  (isAligned (section_offset elf) = true -> delta = 0) /\
  file_header elf' = file_header elf /\
  section_headers elf' = section_headers elf /\
  segment_headers elf' = segment_headers elf /\
  dynsym elf' = dynsym elf /\ dynstr elf' = dynstr elf /\ shstrtab elf' = shstrtab elf.
Proof.
  intros H0 H1. cbv zeta. cbn [alignOffset fst snd set_section_offset section_offset
    file_header section_headers segment_headers dynsym dynstr shstrtab].
  unfold kPageSize in *.
  pose proof (alignUp_small (section_offset elf) H0 ltac:(lia)) as E.
  pose proof (Z.div_mod (section_offset elf + 4095) 4096 ltac:(lia)) as Hd.
  pose proof (Z.mod_pos_bound (section_offset elf + 4095) 4096 ltac:(lia)) as Hm.
  rewrite wrap64_small by lia.
  split; [lia|]. split; [lia|]. split; [apply isAligned_alignUp|].
  split; [ | repeat split ].
  intros Ha. unfold isAligned in Ha. apply Z.eqb_eq in Ha. lia.
Qed.

(** ** The outcomes of a run *)

(** The messages [write], the second loop and the emission abort with. *)
Lemma write_abort_inv os data e :
  write os data = Abort e -> e = WriteFailed (Z.of_nat (length data)).
Proof.
  unfold write. cbv zeta. destruct (negb _); cbn [JIT_CHECK bind]; intros H;
    [discriminate | inversion H; reflexivity].
Qed.

Lemma write_codes_abort_inv entries : forall os e,
  write_codes os entries = Abort e -> exists n, e = WriteFailed n.
Proof.
  induction entries as [|x xs IH]; intros os e H; [discriminate|].
  cbn [write_codes] in H. destruct (write os (code x)) as [os1|e1] eqn:Hw; cbn [bind] in H.
  - eapply IH, H.
  - inversion H; subst. apply write_abort_inv in Hw. eauto.
Qed.

Lemma writeEntries_emit_abort_inv os entries elf hp tp e :
  writeEntries_emit os entries elf hp tp = Abort e -> exists n, e = WriteFailed n.
Proof.
  unfold writeEntries_emit. intros H.
  repeat match type of H with
  | bind (write ?o ?d) _ = _ =>
      let Hw := fresh "Hw" in
      destruct (write o d) eqn:Hw; cbn [bind] in H;
      [ | inversion H; subst; apply write_abort_inv in Hw; eauto ]
  | bind (write_codes ?o ?d) _ = _ =>
      let Hw := fresh "Hw" in
      destruct (write_codes o d) eqn:Hw; cbn [bind] in H;
      [ | inversion H; subst; apply write_codes_abort_inv in Hw; exact Hw ]
  end.
  apply write_abort_inv in H. eauto.
Qed.

(** [pad] on a stream that is not good changes nothing but [failbit]. *)
Lemma pad_not_good size : forall os,
  good os = false ->
  written (pad os size) = written os /\ room (pad os size) = room os /\
  badbit (pad os size) = badbit os.
Proof.
  induction size as [|n IH]; intros os Hg; [auto|].
  cbn [pad]. unfold ostream_put, ostream_write. rewrite Hg.
  destruct (IH (mkOstream (written os) (room os) (badbit os) true)) as (H1 & H2 & H3).
  - unfold good. cbn. apply Bool.negb_false_iff, Bool.orb_true_r.
  - rewrite H1, H2, H3. auto.
Qed.

Lemma length_list_byte_of_string s :
  length (list_byte_of_string s) = String.length s.
Proof.
  unfold list_byte_of_string. rewrite length_map.
  induction s as [|a s IH]; [reflexivity|]. cbn. rewrite IH. reflexivity.
Qed.

Section FurtherProperties.
Context `{K : ElfH}.

(** The layout returns, or stops at the ordering check or at the header
    check. *)
Lemma writeEntries_layout_outcomes entries :
  (exists r, writeEntries_layout entries = Ok r) \/
  writeEntries_layout entries = Abort SectionOrder \/
  writeEntries_layout entries = Abort (HeadersTooBig (alignUp offsetof_header_stop)).
Proof.
  unfold writeEntries_layout.
  destruct (fold_left symbol_step entries _) as [[fh sh sg sy ds st so] t].
  run_layout.
  destruct (alignUp offsetof_header_stop =? kTextStartAddress) eqn:E;
    [ | right; right; reflexivity ].
  rewrite !isAligned_alignUp.
  match goal with |- context [if ?c then _ else _] => destruct c end;
    [left; eexists; reflexivity | right; left; reflexivity].
Qed.

Lemma names_bytes_length entries :
  Z.of_nat (length (names_bytes entries)) = names_size entries.
Proof.
  induction entries as [|e es IH]; [reflexivity|].
  unfold names_bytes in *. cbn [map concat names_size fold_right].
  rewrite !length_app, length_list_byte_of_string. cbn [length].
  fold (names_size es). rewrite <- IH. lia.
Qed.

(** X6. With a 64-bit cursor that is not a multiple of the page size,
    [initTextSection] and [initDynsymSection] abort with their alignment
    messages, which carry the cursor; both are structural invariant
    violations. *)
Theorem unaligned_cursor_is_fatal (elf : Object) (text_size : Z) :
  0 <= section_offset elf < 2 ^ 64 ->
  section_offset elf mod kPageSize <> 0 ->
  initTextSection elf text_size = Abort (TextUnaligned (section_offset elf)) /\
  initDynsymSection elf = Abort (DynsymUnaligned (section_offset elf)) /\
  kind_of (TextUnaligned (section_offset elf)) = StructuralInvariantViolation /\
  kind_of (DynsymUnaligned (section_offset elf)) = StructuralInvariantViolation.
Proof.
  intros Hr Hm.
  assert (Ha : isAligned (section_offset elf) = false).
  { destruct (isAligned (section_offset elf)) eqn:E; [ | reflexivity ].
    unfold isAligned in E. apply Z.eqb_eq in E. exfalso. apply Hm.
    rewrite E. apply alignUp_multiple. }
  unfold initTextSection, initDynsymSection. rewrite Ha. repeat split.
Qed.

(** X8. Whatever the entries and the stream, [writeEntries] never aborts with
    the alignment message of [initTextSection] or of [initDynsymSection]; and
    when the object fits 64-bit offsets it never aborts with the ordering
    message of [initReadonlySegment]. *)
Theorem alignment_checks_never_fail (entries : list CodeEntry) (os : ostream) (off : Z) :
  writeEntries os entries <> Abort (TextUnaligned off) /\
  writeEntries os entries <> Abort (DynsymUnaligned off) /\
  (object_fits entries -> writeEntries os entries <> Abort SectionOrder).
Proof.
  assert (Hcases : forall e, writeEntries os entries = Abort e ->
            e = SectionOrder \/ e = HeadersTooBig (alignUp offsetof_header_stop) \/
            exists n, e = WriteFailed n).
  { intros e H. unfold writeEntries in H.
    destruct (writeEntries_layout_outcomes entries) as [[[[elf hp] tp] HL] | [HL | HL]];
      rewrite HL in H; cbn [bind] in H.
    - right; right. eapply writeEntries_emit_abort_inv, H.
    - inversion H; auto.
    - inversion H; auto. }
  split; [ | split ].
  - intros H. destruct (Hcases _ H) as [E | [E | [n E]]]; discriminate E.
  - intros H. destruct (Hcases _ H) as [E | [E | [n E]]]; discriminate E.
  - intros Hfit H. unfold writeEntries in H.
    destruct (Z.eq_dec (alignUp offsetof_header_stop) kTextStartAddress) as [Hh | Hh].
    + rewrite (writeEntries_layout_ok entries Hh Hfit) in H. cbn [bind] in H.
      apply writeEntries_emit_abort_inv in H as [n E]. discriminate E.
    + rewrite writeEntries_layout_abort_headers in H by exact Hh. discriminate H.
Qed.

(** ** The headers *)

(** X7. The file header [writeEntries] leaves counts the section and segment
    headers that are in the workspace (5 and 2), gives their offsets in
    [Object], and names as section of section names the index of the
    Shstrtab header, a string table whose size is the length of the
    section-name table; its other fields are those of a default file header. *)
Theorem file_header_describes_tables (entries : list CodeEntry) :
  headers_fit -> object_fits entries ->
  exists elf header_padding text_padding,
    writeEntries_layout entries = Ok (elf, header_padding, text_padding) /\
    let header := file_header elf in
    FileHeader.section_header_count header = Z.of_nat (length (section_headers elf)) /\
    FileHeader.section_header_count header = 5 /\
    FileHeader.segment_header_count header = Z.of_nat (length (segment_headers elf)) /\
    FileHeader.segment_header_count header = 2 /\
    FileHeader.section_header_offset header = offsetof_section_headers /\
    FileHeader.segment_header_offset header = offsetof_segment_headers /\
    (exists names,
       section_headers elf !! Z.to_nat (FileHeader.section_name_index header) = Some names /\
       names = getSectionHeader elf SectionIdx.kShstrtab /\
       SectionHeader.type names = kStringTable /\
       SectionHeader.size names = Z.of_nat (length (StringTable.bytes (shstrtab elf)))) /\
    FileHeader.ident header = FileHeader.ident FileHeader_default /\
    FileHeader.type header = FileHeader.type FileHeader_default /\
    FileHeader.machine header = FileHeader.machine FileHeader_default /\
    FileHeader.version header = FileHeader.version FileHeader_default /\
    FileHeader.entry_address header = FileHeader.entry_address FileHeader_default /\
    FileHeader.flags header = FileHeader.flags FileHeader_default /\
    FileHeader.header_size header = FileHeader.header_size FileHeader_default /\
    FileHeader.section_header_size header = FileHeader.section_header_size FileHeader_default /\
    FileHeader.segment_header_size header = FileHeader.segment_header_size FileHeader_default.
Proof.
  intros Hh Hfit. exists (layout_of entries), header_padding_of, (text_padding_of entries).
  split; [apply writeEntries_layout_ok; assumption|].
  cbv zeta. do 6 (split; [reflexivity|]).
  split; [ | repeat split ].
  eexists. split; [reflexivity|]. repeat split.
Qed.

(** X9. Dynsym starts at the first page boundary at or after the end of Text:
    its offset is the end of Text plus the text padding, which is less than a
    page and is 0 when the Text size is a multiple of the page size; its
    address is its offset. *)
Theorem dynsym_starts_next_page (entries : list CodeEntry) :
  headers_fit -> object_fits entries ->
  exists elf header_padding text_padding,
    writeEntries_layout entries = Ok (elf, header_padding, text_padding) /\
    let text := getSectionHeader elf SectionIdx.kText in
    let dynsym := getSectionHeader elf SectionIdx.kDynsym in
    0 <= text_padding < kPageSize /\
    SectionHeader.offset dynsym =
      SectionHeader.offset text + SectionHeader.size text + text_padding /\
    SectionHeader.offset dynsym mod kPageSize = 0 /\
    SectionHeader.address dynsym = SectionHeader.offset dynsym /\
    (SectionHeader.size text mod kPageSize = 0 -> text_padding = 0).
Proof.
  intros Hh Hfit. exists (layout_of entries), header_padding_of, (text_padding_of entries).
  split; [apply writeEntries_layout_ok; assumption|].
  pose proof (total_code_size_nonneg entries) as Ht.
  pose proof (page_round_bounds _ Ht) as [Hp Hm].
  cbv zeta. change (SectionHeader.offset (getSectionHeader (layout_of entries) SectionIdx.kDynsym))
    with (dynsym_offset entries).
  change (SectionHeader.address (getSectionHeader (layout_of entries) SectionIdx.kDynsym))
    with (dynsym_offset entries).
  change (SectionHeader.offset (getSectionHeader (layout_of entries) SectionIdx.kText))
    with kTextStartAddress.
  change (SectionHeader.size (getSectionHeader (layout_of entries) SectionIdx.kText))
    with (total_code_size entries).
  unfold text_padding_of, dynsym_offset, kTextStartAddress, kPageSize in *.
  split; [lia|]. split; [lia|]. split; [ | split; [reflexivity|] ].
  - rewrite <- Z.add_mod_idemp_r, Hm by lia. reflexivity.
  - intros Hz. unfold page_round, kPageSize.
    pose proof (Z.div_mod (total_code_size entries) 4096 ltac:(lia)) as Hd. rewrite Hz in Hd.
    replace (total_code_size entries + (4096 - 1))
      with (total_code_size entries / 4096 * 4096 + 4095) by lia.
    rewrite Z.div_add_l by lia. change (4095 / 4096) with 0. lia.
Qed.

(** X10. The Dynstr header has type [kStringTable] and flag [kSectionAlloc];
    Dynstr starts where Dynsym ends, its address is its offset, and its size
    is the length of the symbol-name table: one byte for the empty string and,
    for every entry, duplicates included, its name and a terminator. *)
Theorem dynstr_section_header (entries : list CodeEntry) :
  headers_fit -> object_fits entries ->
  exists elf header_padding text_padding,
    writeEntries_layout entries = Ok (elf, header_padding, text_padding) /\
    let symbols := getSectionHeader elf SectionIdx.kDynsym in
    let names := getSectionHeader elf SectionIdx.kDynstr in
    SectionHeader.type names = kStringTable /\
    SectionHeader.flags names = kSectionAlloc /\
    SectionHeader.offset names = SectionHeader.offset symbols + SectionHeader.size symbols /\
    SectionHeader.address names = SectionHeader.offset names /\
    SectionHeader.size names = Z.of_nat (length (StringTable.bytes (dynstr elf))) /\
    SectionHeader.size names = 1 + names_size entries.
Proof.
  intros Hh Hfit. exists (layout_of entries), header_padding_of, (text_padding_of entries).
  split; [apply writeEntries_layout_ok; assumption|].
  cbv zeta. do 4 (split; [reflexivity|]).
  change (SectionHeader.size (getSectionHeader (layout_of entries) SectionIdx.kDynstr))
    with (dynstr_size entries).
  change (StringTable.bytes (dynstr (layout_of entries))) with ([x00] ++ names_bytes entries).
  rewrite dynstr_bytes_size. split; [reflexivity|].
  unfold dynstr_size. rewrite names_bytes_length. reflexivity.
Qed.

(** X11. The Shstrtab header has type [kStringTable], no flag and no address;
    Shstrtab starts where Dynstr ends, its size is the length of the
    section-name table with its own name in it, and the cursor ends one past
    it.  The name offset of each of the four headers is where its name,
    [.text], [.dynsym], [.dynstr] or [.shstrtab], starts in that table; the
    Null header has name offset 0, the empty string. *)
Theorem shstrtab_section_header (entries : list CodeEntry) :
  headers_fit -> object_fits entries ->
  exists elf header_padding text_padding,
    writeEntries_layout entries = Ok (elf, header_padding, text_padding) /\
    let names := getSectionHeader elf SectionIdx.kDynstr in
    let header := getSectionHeader elf SectionIdx.kShstrtab in
    let table := StringTable.bytes (shstrtab elf) in
    SectionHeader.type header = kStringTable /\
    SectionHeader.flags header = 0 /\
    SectionHeader.address header = 0 /\
    SectionHeader.offset header = SectionHeader.offset names + SectionHeader.size names /\
    SectionHeader.size header = Z.of_nat (length table) /\
    section_offset elf = SectionHeader.offset header + SectionHeader.size header /\
    placed_at table (list_byte_of_string ".text" ++ [x00])
      (SectionHeader.name_offset (getSectionHeader elf SectionIdx.kText)) /\
    placed_at table (list_byte_of_string ".dynsym" ++ [x00])
      (SectionHeader.name_offset (getSectionHeader elf SectionIdx.kDynsym)) /\
    placed_at table (list_byte_of_string ".dynstr" ++ [x00])
      (SectionHeader.name_offset (getSectionHeader elf SectionIdx.kDynstr)) /\
    placed_at table (list_byte_of_string ".shstrtab" ++ [x00])
      (SectionHeader.name_offset header) /\
    SectionHeader.name_offset (getSectionHeader elf SectionIdx.kNull) = 0 /\
    table !! 0%nat = Some x00.
Proof.
  intros Hh Hfit. exists (layout_of entries), header_padding_of, (text_padding_of entries).
  split; [apply writeEntries_layout_ok; assumption|].
  cbv zeta. do 6 (split; [reflexivity|]).
  split; [exists [x00]; eexists; split; reflexivity|].
  split; [exists (x00 :: list_byte_of_string ".text" ++ [x00]); eexists; split; reflexivity|].
  split; [exists (x00 :: list_byte_of_string ".text" ++ x00 :: list_byte_of_string ".dynsym"
                   ++ [x00]); eexists; split; reflexivity|].
  split; [exists (x00 :: list_byte_of_string ".text" ++ x00 :: list_byte_of_string ".dynsym"
                   ++ x00 :: list_byte_of_string ".dynstr" ++ [x00]);
          exists []; split; reflexivity|].
  split; reflexivity.
Qed.

(** X12. The Text segment is loadable, executable and readable and has the
    offset, address and size of the Text section.  Both segments are aligned
    to a page, start on a page boundary and have equal offset and address;
    the Text segment ends before the Readonly segment starts, and the Readonly
    segment ends where Dynstr ends, which is where Shstrtab starts: it covers
    Dynsym and Dynstr and nothing of the section-name table. *)
Theorem segments_cover_sections (entries : list CodeEntry) :
  headers_fit -> object_fits entries ->
  exists elf header_padding text_padding,
    writeEntries_layout entries = Ok (elf, header_padding, text_padding) /\
    let text := getSectionHeader elf SectionIdx.kText in
    let symbols := getSectionHeader elf SectionIdx.kDynsym in
    let names := getSectionHeader elf SectionIdx.kDynstr in
    let section_names := getSectionHeader elf SectionIdx.kShstrtab in
    let code := getSegmentHeader elf SegmentIdx.kText in
    let readonly := getSegmentHeader elf SegmentIdx.kReadonly in
    SegmentHeader.type code = kLoadableSegment /\
    SegmentHeader.flags code = Z.lor kSegmentExecutable kSegmentReadable /\
    SegmentHeader.offset code = SectionHeader.offset text /\
    SegmentHeader.address code = SectionHeader.address text /\
    SegmentHeader.file_size code = SectionHeader.size text /\
    SegmentHeader.mem_size code = SegmentHeader.file_size code /\
    SegmentHeader.align code = kPageSize /\
    SegmentHeader.align readonly = kPageSize /\
    SegmentHeader.offset code mod kPageSize = 0 /\
    SegmentHeader.offset readonly mod kPageSize = 0 /\
    SegmentHeader.address code = SegmentHeader.offset code /\
    SegmentHeader.address readonly = SegmentHeader.offset readonly /\
    SegmentHeader.offset code + SegmentHeader.file_size code <= SegmentHeader.offset readonly /\
    SegmentHeader.offset readonly + SegmentHeader.file_size readonly =
      SectionHeader.offset names + SectionHeader.size names /\
    SegmentHeader.offset readonly + SegmentHeader.file_size readonly =
      SectionHeader.offset section_names.
Proof.
  intros Hh Hfit. exists (layout_of entries), header_padding_of, (text_padding_of entries).
  split; [apply writeEntries_layout_ok; assumption|].
  pose proof (total_code_size_nonneg entries) as Ht.
  pose proof (page_round_bounds _ Ht) as [Hp Hm].
  cbv zeta. do 9 (split; [reflexivity|]).
  change (SegmentHeader.offset (getSegmentHeader (layout_of entries) SegmentIdx.kReadonly))
    with (dynsym_offset entries).
  change (SegmentHeader.offset (getSegmentHeader (layout_of entries) SegmentIdx.kText))
    with kTextStartAddress.
  change (SegmentHeader.file_size (getSegmentHeader (layout_of entries) SegmentIdx.kText))
    with (total_code_size entries).
  change (SegmentHeader.file_size (getSegmentHeader (layout_of entries) SegmentIdx.kReadonly))
    with (dynsym_size entries + dynstr_size entries).
  change (SectionHeader.offset (getSectionHeader (layout_of entries) SectionIdx.kDynstr))
    with (dynstr_offset entries).
  change (SectionHeader.size (getSectionHeader (layout_of entries) SectionIdx.kDynstr))
    with (dynstr_size entries).
  change (SectionHeader.offset (getSectionHeader (layout_of entries) SectionIdx.kShstrtab))
    with (shstrtab_offset entries).
  unfold shstrtab_offset, dynstr_offset, dynsym_offset, kTextStartAddress, kPageSize in *.
  split; [rewrite <- Z.add_mod_idemp_r, Hm by lia; reflexivity|].
  split; [reflexivity|]. split; [reflexivity|].
  split; [lia|]. split; lia.
Qed.

(** ** The symbols and the object *)

Lemma symbols_at_adjacent entries : forall a n i s1 s2,
  symbols_at a n entries !! i = Some s1 ->
  symbols_at a n entries !! S i = Some s2 ->
  Symbol.address s2 = Symbol.address s1 + Symbol.size s1.
Proof.
  induction entries as [|e es IH]; intros a n i s1 s2 H1 H2; [discriminate|].
  destruct i as [|i].
  - cbn in H1. inversion H1; subst s1. cbn [symbols_at lookup list_lookup] in H2.
    destruct es as [|e' es']; [discriminate|]. cbn in H2. inversion H2; subst s2.
    reflexivity.
  - cbn [symbols_at lookup list_lookup] in H1, H2. eapply IH; eassumption.
Qed.

Lemma symbols_at_last entries : forall a n s,
  last (symbols_at a n entries) = Some s ->
  Symbol.address s + Symbol.size s = a + total_code_size entries.
Proof.
  induction entries as [|e es IH]; intros a n s H; [discriminate|].
  cbn [symbols_at] in H. destruct es as [|e' es'].
  - cbn in H. inversion H; subst s. cbn. lia.
  - change (total_code_size (e :: e' :: es'))
      with (code_size e + total_code_size (e' :: es')).
    rewrite last_cons in H.
    destruct (last (symbols_at (a + code_size e) _ (e' :: es'))) as [s'|] eqn:E.
    + inversion H; subst s'. rewrite (IH _ _ _ E). lia.
    + cbn [symbols_at] in E. rewrite last_cons in E.
      destruct (last _) in E; discriminate.
Qed.

(** X13. The symbols of the entries tile the Text section: the first starts at
    the address of Text, each next one starts where the one before it ends,
    and the last ends at the end of Text. *)
Theorem symbols_tile_text (entries : list CodeEntry) :
  headers_fit -> object_fits entries ->
  exists elf header_padding text_padding,
    writeEntries_layout entries = Ok (elf, header_padding, text_padding) /\
    let text := getSectionHeader elf SectionIdx.kText in
    (forall first, entry_symbols elf !! 0%nat = Some first ->
       Symbol.address first = SectionHeader.address text) /\
    (forall i sym next,
       entry_symbols elf !! i = Some sym -> entry_symbols elf !! S i = Some next ->
       Symbol.address next = Symbol.address sym + Symbol.size sym) /\
    (forall final, last (entry_symbols elf) = Some final ->
       Symbol.address final + Symbol.size final =
       SectionHeader.address text + SectionHeader.size text).
Proof.
  intros Hh Hfit. exists (layout_of entries), header_padding_of, (text_padding_of entries).
  split; [apply writeEntries_layout_ok; assumption|].
  cbv zeta. split; [ | split ].
  - intros first H. change (entry_symbols (layout_of entries))
      with (symbols_at kTextStartAddress 1 entries) in H.
    destruct entries as [|e es]; [discriminate|]. cbn in H. inversion H. reflexivity.
  - intros i sym next H1 H2.
    exact (symbols_at_adjacent entries kTextStartAddress 1 i sym next H1 H2).
  - intros final H. exact (symbols_at_last entries kTextStartAddress 1 final H).
Qed.

(** X14. When the symbol-name table is shorter than [2 ^ 32] bytes, the name
    offset of the symbol of every entry is where the name of that entry,
    followed by a terminator, starts in the symbol-name table. *)
Theorem symbol_name_offsets (entries : list CodeEntry) :
  headers_fit -> object_fits entries -> 1 + names_size entries < 2 ^ 32 ->
  exists elf header_padding text_padding,
    writeEntries_layout entries = Ok (elf, header_padding, text_padding) /\
    forall i entry, entries !! i = Some entry ->
      exists sym, entry_symbols elf !! i = Some sym /\
        placed_at (StringTable.bytes (dynstr elf))
          (list_byte_of_string (func_name entry) ++ [x00]) (Symbol.name_offset sym).
Proof.
  intros Hh Hfit Hn. apply symbol_names; [assumption | assumption |].
  unfold dynstr_size. rewrite names_bytes_length. exact Hn.
Qed.

(** The code of the [i]-th entry in the concatenation of all code. *)
Lemma code_in_concat entries i entry :
  entries !! i = Some entry ->
  placed_at (concat (map code entries)) (code entry) (total_code_size (take i entries)).
Proof.
  intros Hi. exists (concat (map code (take i entries))),
    (concat (map code (drop (S i) entries))). split.
  - rewrite <- (take_drop_middle entries i entry Hi) at 1.
    rewrite map_app, concat_app. reflexivity.
  - symmetry. apply total_code_size_concat.
Qed.

Lemma placed_at_app before image content after offset :
  placed_at image content offset ->
  placed_at (before ++ image ++ after) content (Z.of_nat (length before) + offset).
Proof.
  intros (b & a & -> & <-). exists (before ++ b), (a ++ after). split.
  - rewrite <- !app_assoc. reflexivity.
  - rewrite length_app. lia.
Qed.

(** X15. When [Object] has no gap before [header_stop], in the object written
    to a good stream with room, the code of every entry is at the file offset
    equal to the address of its symbol, and has the size of its symbol. *)
Theorem code_at_symbol_address (entries : list CodeEntry) (os : ostream) :
  headers_exact -> object_fits entries ->
  good os = true -> object_size entries <= Z.of_N (room os) ->
  exists elf header_padding text_padding image,
    writeEntries_layout entries = Ok (elf, header_padding, text_padding) /\
    writeEntries os entries = Ok (ostream_accept os image) /\
    forall i entry, entries !! i = Some entry ->
      exists sym, entry_symbols elf !! i = Some sym /\
        placed_at image (code entry) (Symbol.address sym) /\
        Symbol.size sym = Z.of_nat (length (code entry)).
Proof.
  intros Hx Hfit Hg Hr. pose proof (headers_exact_fit Hx) as Hh.
  exists (layout_of entries), header_padding_of, (text_padding_of entries).
  eexists. split; [apply writeEntries_layout_ok; assumption|].
  split; [apply writeEntries_fits; assumption|].
  intros i entry Hi.
  destruct (symbols_at_lookup entries kTextStartAddress 1 i entry Hi)
    as (sym & Hs & _ & _ & Ha & Hsz).
  exists sym. split; [exact Hs|]. split; [ | exact Hsz ].
  rewrite Ha. rewrite <- (header_region_length entries Hx).
  pose proof (placed_at_app
    (FileHeader.bytes (file_header (layout_of entries))
     ++ concat (map SectionHeader.bytes (section_headers (layout_of entries)))
     ++ concat (map SegmentHeader.bytes (segment_headers (layout_of entries)))
     ++ zeros (Z.to_nat header_padding_of))
    _ _ (zeros (Z.to_nat (text_padding_of entries))
         ++ SymbolTable.bytes (dynsym (layout_of entries))
         ++ StringTable.bytes (dynstr (layout_of entries))
         ++ StringTable.bytes (shstrtab (layout_of entries))) _
    (code_in_concat entries i entry Hi)) as Hp.
  unfold object_image. rewrite <- !app_assoc in Hp. exact Hp.
Qed.

(** X16. When [Object] has no gap before [header_stop], in the object written
    to a good stream with room, every section is at the offset and has the
    size its header gives, and the object is as long as the final cursor:
    a page of headers, the code rounded up to a page, 24 bytes per symbol
    with the null symbol, the symbol-name table and the 33 bytes of the
    section-name table. *)
Theorem sections_where_headers_say (entries : list CodeEntry) (os : ostream) :
  headers_exact -> object_fits entries ->
  good os = true -> object_size entries <= Z.of_N (room os) ->
  exists elf header_padding text_padding image,
    writeEntries_layout entries = Ok (elf, header_padding, text_padding) /\
    writeEntries os entries = Ok (ostream_accept os image) /\
    section_in_image image (getSectionHeader elf SectionIdx.kText)
      (concat (map code entries)) /\
    section_in_image image (getSectionHeader elf SectionIdx.kDynsym)
      (SymbolTable.bytes (dynsym elf)) /\
    section_in_image image (getSectionHeader elf SectionIdx.kDynstr)
      (StringTable.bytes (dynstr elf)) /\
    section_in_image image (getSectionHeader elf SectionIdx.kShstrtab)
      (StringTable.bytes (shstrtab elf)) /\
    Z.of_nat (length image) = section_offset elf /\
    Z.of_nat (length image) =
      kTextStartAddress + page_round (total_code_size entries)
      + Symbol.sizeof * (Z.of_nat (length entries) + 1)
      + (1 + names_size entries) + 33.
Proof.
  intros Hx Hfit Hg Hr. pose proof (headers_exact_fit Hx) as Hh.
  exists (layout_of entries), header_padding_of, (text_padding_of entries).
  eexists. split; [apply writeEntries_layout_ok; assumption|].
  split; [apply writeEntries_fits; assumption|].
  destruct (sections_in_place entries Hx Hfit) as (H1 & H2 & H3 & H4 & H5).
  do 4 (split; [assumption|]). split; [exact H5|].
  rewrite H5. unfold object_end, shstrtab_offset, dynstr_offset, dynsym_offset,
    dynstr_size, dynsym_size.
  rewrite names_bytes_length. reflexivity.
Qed.

(** ** Writing *)

(** X17. On a good stream, [write] returns with exactly [data] appended when
    the sink has room for it, and aborts with the write-failed message and
    the size of [data], an I/O failure, when it has not; a [write] that
    returns leaves the stream good. *)
Theorem write_returns_iff (os : ostream) (data : list byte) :
  good os = true ->
  ((N.of_nat (length data) <= room os)%N ->
     write os data = Ok (ostream_accept os data)) /\
  ((room os < N.of_nat (length data))%N ->
     write os data = Abort (WriteFailed (Z.of_nat (length data))) /\
     kind_of (WriteFailed (Z.of_nat (length data))) = IoFailure) /\
  (forall os', write os data = Ok os' ->
     written os' = written os ++ data /\ good os' = true).
Proof.
  intros Hg. split; [ | split ].
  - intros Hr. apply write_fits; assumption.
  - intros Hr. split; [ | reflexivity ].
    apply write_abort, ostream_write_overflow; assumption.
  - intros os' H. apply write_Ok_inv in H as [_ ->]; [ | exact Hg ]. split; reflexivity.
Qed.

(** X18. On a good stream, [pad] appends as many zero bytes as the sink takes,
    at most [size], and never aborts; the stream is bad afterwards exactly
    when the sink had room for fewer than [size] bytes. *)
Theorem pad_writes_zeros (os : ostream) (size : nat) :
  good os = true ->
  written (pad os size) = written os ++ zeros (Nat.min size (N.to_nat (room os))) /\
  room (pad os size) = (room os - N.of_nat size)%N /\
  bad (pad os size) = (room os <? N.of_nat size)%N.
Proof.
  revert os. induction size as [|n IH]; intros os Hg.
  - cbn [pad Nat.min zeros replicate]. rewrite app_nil_r, N.sub_0_r.
    apply good_true in Hg as [Hb _]. unfold bad. rewrite Hb.
    split; [reflexivity|]. split; [reflexivity|]. symmetry. apply N.ltb_ge. lia.
  - cbn [pad]. unfold ostream_put.
    destruct (N.le_gt_cases 1 (room os)) as [H1 | H1].
    + rewrite ostream_write_fits by (cbn [length]; assumption || lia).
      destruct (IH (ostream_accept os [x00]) (accept_good _ _)) as (Hw & Hr & Hb).
      rewrite Hw, Hr, Hb. cbn [ostream_accept written room length].
      replace (N.to_nat (room os - N.of_nat 1)) with (N.to_nat (room os) - 1)%nat by lia.
      destruct (N.to_nat (room os)) as [|r] eqn:Er; [lia|].
      cbn [Nat.min zeros replicate]. replace (S r - 1)%nat with r by lia.
      rewrite <- app_assoc. split; [reflexivity|]. split; [lia|].
      destruct (N.ltb_spec (room os - N.of_nat 1) (N.of_nat n));
        destruct (N.ltb_spec (room os) (N.of_nat (S n))); try reflexivity; lia.
    + assert (Hr0 : room os = 0%N) by lia.
      unfold ostream_write. rewrite Hg, Hr0. cbn [length N.of_nat N.leb N.compare N.to_nat take].
      change (N.of_nat 1 <=? 0)%N with false. cbv iota.
      match goal with |- context [pad ?s n] =>
        destruct (pad_not_good n s eq_refl) as (Hw & Hr & Hb) end.
      unfold bad. rewrite Hw, Hr, Hb. cbn [written room badbit take N.to_nat].
      rewrite Nat.min_0_r. cbn [zeros replicate]. rewrite !app_nil_r.
      split; [reflexivity|]. split; [reflexivity|]. symmetry. apply N.ltb_lt. lia.
Qed.

(** X19. When the sink has no room for the padding, the [write] that follows
    [pad] aborts with an I/O failure, whatever it was to write, even
    nothing. *)
Theorem pad_failure_caught_by_write (os : ostream) (size : nat) (data : list byte) :
  good os = true -> (room os < N.of_nat size)%N ->
  write (pad os size) data = Abort (WriteFailed (Z.of_nat (length data))) /\
  kind_of (WriteFailed (Z.of_nat (length data))) = IoFailure.
Proof.
  intros Hg Hr. split; [ | reflexivity ].
  apply write_abort, ostream_write_bad, pad_overflow; assumption.
Qed.

(** X20. On a good stream, [writeEntries] returns exactly when the sink has
    room for the whole object, and then the whole object has been appended;
    when the sink is too small it aborts with an I/O failure. *)
Theorem writeEntries_returns_iff (entries : list CodeEntry) (os : ostream) :
  headers_fit -> object_fits entries -> good os = true ->
  ((exists os', writeEntries os entries = Ok os') <->
   object_size entries <= Z.of_N (room os)) /\
  (forall os', writeEntries os entries = Ok os' ->
     os' = ostream_accept os (object_image entries (layout_of entries) header_padding_of
                                (text_padding_of entries))) /\
  (Z.of_N (room os) < object_size entries ->
   exists n, writeEntries os entries = Abort (WriteFailed n) /\
             kind_of (WriteFailed n) = IoFailure).
Proof.
  intros Hh Hfit Hg.
  assert (Hinv : forall os', writeEntries os entries = Ok os' ->
            object_size entries <= Z.of_N (room os) /\
            os' = ostream_accept os (object_image entries (layout_of entries)
                                       header_padding_of (text_padding_of entries))).
  { intros os' H. apply writeEntries_Ok_inv in H as (elf & hp & tp & HL & Hr & ->);
      [ | exact Hg ].
    rewrite (writeEntries_layout_ok entries Hh Hfit) in HL. inversion HL; subst.
    unfold object_size. split; [lia | reflexivity]. }
  split; [split|split].
  - intros [os' H]. apply (Hinv os' H).
  - intros Hr. eexists. apply writeEntries_fits; assumption.
  - intros os' H. apply (Hinv os' H).
  - intros Hr. destruct (writeEntries os entries) as [os'|e] eqn:H.
    + destruct (Hinv os' eq_refl) as [Hle _]. lia.
    + unfold writeEntries in H. rewrite (writeEntries_layout_ok entries Hh Hfit) in H.
      cbn [bind] in H. apply writeEntries_emit_abort_inv in H as [n ->].
      exists n. split; reflexivity.
Qed.

(** X21. On a stream that has [failbit] set and [badbit] clear before the call,
    [writeEntries] returns without having written anything and leaves the
    stream as it was: [bad] does not see [failbit]. *)
Theorem writeEntries_on_failed_stream (entries : list CodeEntry) (os : ostream) :
  headers_fit -> object_fits entries ->
  badbit os = false -> failbit os = true ->
  writeEntries os entries = Ok os.
Proof.
  intros Hh Hfit Hb Hf.
  eapply writeEntries_failed_stream; [exact Hb | exact Hf |].
  apply writeEntries_layout_ok; assumption.
Qed.

End FurtherProperties.

(** ** The further properties at concrete inputs *)

Lemma alignUp_rounds_up_witness :
  0 <= 496 /\ 496 + (kPageSize - 1) < 2 ^ 64 /\ alignUp 496 mod kPageSize = 0.
Proof.
  assert (H0 : 0 <= 496) by lia.
  assert (H1 : 496 + (kPageSize - 1) < 2 ^ 64) by (vm_compute; reflexivity).
  split; [exact H0|]. split; [exact H1|].
  exact (proj1 (proj2 (alignUp_rounds_up 496 H0 H1))).
Defined.

Lemma alignUp_wraps_to_zero_witness :
  2 ^ 64 - kPageSize < 2 ^ 64 - 1 < 2 ^ 64 /\ alignUp (2 ^ 64 - 1) = 0.
Proof.
  assert (H : 2 ^ 64 - kPageSize < 2 ^ 64 - 1 < 2 ^ 64)
    by (split; vm_compute; reflexivity).
  split; [exact H|]. exact (alignUp_wraps_to_zero (2 ^ 64 - 1) H).
Defined.

Lemma isAligned_iff_witness :
  0 <= 8192 < 2 ^ 64 /\ isAligned 8192 = true.
Proof.
  assert (H : 0 <= 8192 < 2 ^ 64) by (split; [lia | vm_compute; reflexivity]).
  split; [exact H|]. apply (proj2 (isAligned_iff 8192 H)). reflexivity.
Defined.

Lemma alignOffset_advances_witness :
  let elf := set_section_offset (@Object_new elf64) 4144 in
  0 <= section_offset elf /\ section_offset elf + (kPageSize - 1) < 2 ^ 64 /\
  section_offset (snd (alignOffset elf)) = section_offset elf + fst (alignOffset elf).
Proof.
  intros elf.
  assert (H0 : 0 <= section_offset elf) by (vm_compute; discriminate).
  assert (H1 : section_offset elf + (kPageSize - 1) < 2 ^ 64) by (vm_compute; reflexivity).
  split; [exact H0|]. split; [exact H1|].
  exact (proj1 (proj2 (alignOffset_advances elf H0 H1))).
Defined.

Lemma unaligned_cursor_is_fatal_witness :
  let elf := set_section_offset (@Object_new elf64) 4144 in
  0 <= section_offset elf < 2 ^ 64 /\ section_offset elf mod kPageSize <> 0 /\
  @initDynsymSection elf64 elf = Abort (DynsymUnaligned 4144).
Proof.
  intros elf.
  assert (H0 : 0 <= section_offset elf < 2 ^ 64)
    by (split; [vm_compute; discriminate | vm_compute; reflexivity]).
  assert (H1 : section_offset elf mod kPageSize <> 0)
    by (intros E; vm_compute in E; discriminate E).
  split; [exact H0|]. split; [exact H1|].
  exact (proj1 (proj2 (@unaligned_cursor_is_fatal elf64 elf 0 H0 H1))).
Defined.

Lemma ex_entries_room : @object_size elf64 ex_entries <= Z.of_N (room (ostream_new 10000)).
Proof. vm_compute. discriminate. Defined.

Lemma file_header_describes_tables_witness :
  @headers_fit elf64 /\ object_fits ex_entries /\
  exists elf header_padding text_padding,
    @writeEntries_layout elf64 ex_entries = Ok (elf, header_padding, text_padding) /\
    FileHeader.section_header_count (file_header elf) = 5 /\
    FileHeader.segment_header_count (file_header elf) = 2.
Proof.
  split; [exact elf64_headers_fit|]. split; [exact ex_entries_fit|].
  destruct (@file_header_describes_tables elf64 ex_entries elf64_headers_fit ex_entries_fit)
    as (elf & hp & tp & HL & _ & H5 & _ & H2 & _).
  exists elf, hp, tp. split; [exact HL|]. split; [exact H5 | exact H2].
Defined.

Lemma alignment_checks_never_fail_witness :
  object_fits ex_entries /\
  @writeEntries elf64 (ostream_new 496) ex_entries <> Abort SectionOrder.
Proof.
  split; [exact ex_entries_fit|].
  exact (proj2 (proj2 (@alignment_checks_never_fail elf64 ex_entries (ostream_new 496) 0))
           ex_entries_fit).
Defined.

Lemma dynsym_starts_next_page_witness :
  @headers_fit elf64 /\ object_fits ex_entries /\
  exists elf header_padding text_padding,
    @writeEntries_layout elf64 ex_entries = Ok (elf, header_padding, text_padding) /\
    SectionHeader.offset (getSectionHeader elf SectionIdx.kDynsym) mod kPageSize = 0.
Proof.
  split; [exact elf64_headers_fit|]. split; [exact ex_entries_fit|].
  destruct (@dynsym_starts_next_page elf64 ex_entries elf64_headers_fit ex_entries_fit)
    as (elf & hp & tp & HL & _ & _ & Hm & _).
  exists elf, hp, tp. split; [exact HL | exact Hm].
Defined.

Lemma dynstr_section_header_witness :
  @headers_fit elf64 /\ object_fits ex_entries /\
  exists elf header_padding text_padding,
    @writeEntries_layout elf64 ex_entries = Ok (elf, header_padding, text_padding) /\
    SectionHeader.size (getSectionHeader elf SectionIdx.kDynstr) = 9.
Proof.
  split; [exact elf64_headers_fit|]. split; [exact ex_entries_fit|].
  destruct (@dynstr_section_header elf64 ex_entries elf64_headers_fit ex_entries_fit)
    as (elf & hp & tp & HL & _ & _ & _ & _ & _ & Hs).
  exists elf, hp, tp. split; [exact HL | exact Hs].
Defined.

Lemma shstrtab_section_header_witness :
  @headers_fit elf64 /\ object_fits ex_entries /\
  exists elf header_padding text_padding,
    @writeEntries_layout elf64 ex_entries = Ok (elf, header_padding, text_padding) /\
    SectionHeader.flags (getSectionHeader elf SectionIdx.kShstrtab) = 0.
Proof.
  split; [exact elf64_headers_fit|]. split; [exact ex_entries_fit|].
  destruct (@shstrtab_section_header elf64 ex_entries elf64_headers_fit ex_entries_fit)
    as (elf & hp & tp & HL & _ & Hf & _).
  exists elf, hp, tp. split; [exact HL | exact Hf].
Defined.

Lemma segments_cover_sections_witness :
  @headers_fit elf64 /\ object_fits ex_entries /\
  exists elf header_padding text_padding,
    @writeEntries_layout elf64 ex_entries = Ok (elf, header_padding, text_padding) /\
    SegmentHeader.file_size (getSegmentHeader elf SegmentIdx.kText) =
    SectionHeader.size (getSectionHeader elf SectionIdx.kText).
Proof.
  split; [exact elf64_headers_fit|]. split; [exact ex_entries_fit|].
  destruct (@segments_cover_sections elf64 ex_entries elf64_headers_fit ex_entries_fit)
    as (elf & hp & tp & HL & _ & _ & _ & _ & Hs & _).
  exists elf, hp, tp. split; [exact HL | exact Hs].
Defined.

Lemma symbols_tile_text_witness :
  @headers_fit elf64 /\ object_fits ex_entries /\
  exists elf header_padding text_padding,
    @writeEntries_layout elf64 ex_entries = Ok (elf, header_padding, text_padding) /\
    forall final, last (entry_symbols elf) = Some final ->
      Symbol.address final + Symbol.size final =
      SectionHeader.address (getSectionHeader elf SectionIdx.kText)
      + SectionHeader.size (getSectionHeader elf SectionIdx.kText).
Proof.
  split; [exact elf64_headers_fit|]. split; [exact ex_entries_fit|].
  destruct (@symbols_tile_text elf64 ex_entries elf64_headers_fit ex_entries_fit)
    as (elf & hp & tp & HL & _ & _ & Hlast).
  exists elf, hp, tp. split; [exact HL | exact Hlast].
Defined.

Lemma symbol_name_offsets_witness :
  @headers_fit elf64 /\ object_fits ex_entries /\ 1 + names_size ex_entries < 2 ^ 32 /\
  exists elf header_padding text_padding,
    @writeEntries_layout elf64 ex_entries = Ok (elf, header_padding, text_padding).
Proof.
  assert (Hn : 1 + names_size ex_entries < 2 ^ 32) by (vm_compute; reflexivity).
  split; [exact elf64_headers_fit|]. split; [exact ex_entries_fit|]. split; [exact Hn|].
  destruct (@symbol_name_offsets elf64 ex_entries elf64_headers_fit ex_entries_fit Hn)
    as (elf & hp & tp & HL & _).
  exists elf, hp, tp. exact HL.
Defined.

Lemma code_at_symbol_address_witness :
  @headers_exact elf64 /\ object_fits ex_entries /\ good (ostream_new 10000) = true /\
  @object_size elf64 ex_entries <= Z.of_N (room (ostream_new 10000)) /\
  exists image,
    @writeEntries elf64 (ostream_new 10000) ex_entries =
    Ok (ostream_accept (ostream_new 10000) image).
Proof.
  split; [exact elf64_headers_exact|]. split; [exact ex_entries_fit|].
  split; [reflexivity|]. split; [exact ex_entries_room|].
  destruct (@code_at_symbol_address elf64 ex_entries (ostream_new 10000)
              elf64_headers_exact ex_entries_fit eq_refl ex_entries_room)
    as (elf & hp & tp & image & _ & HW & _).
  exists image. exact HW.
Defined.

Lemma sections_where_headers_say_witness :
  @headers_exact elf64 /\ object_fits ex_entries /\ good (ostream_new 10000) = true /\
  @object_size elf64 ex_entries <= Z.of_N (room (ostream_new 10000)) /\
  exists elf header_padding text_padding image,
    @writeEntries_layout elf64 ex_entries = Ok (elf, header_padding, text_padding) /\
    @writeEntries elf64 (ostream_new 10000) ex_entries =
      Ok (ostream_accept (ostream_new 10000) image) /\
    Z.of_nat (length image) = section_offset elf.
Proof.
  split; [exact elf64_headers_exact|]. split; [exact ex_entries_fit|].
  split; [reflexivity|]. split; [exact ex_entries_room|].
  destruct (@sections_where_headers_say elf64 ex_entries (ostream_new 10000)
              elf64_headers_exact ex_entries_fit eq_refl ex_entries_room)
    as (elf & hp & tp & image & HL & HW & _ & _ & _ & _ & Hlen & _).
  exists elf, hp, tp, image. split; [exact HL|]. split; [exact HW | exact Hlen].
Defined.

Lemma write_returns_iff_witness :
  good (ostream_new 1) = true /\ (room (ostream_new 1) < N.of_nat (length [x00; x01]))%N /\
  write (ostream_new 1) [x00; x01] = Abort (WriteFailed 2).
Proof.
  assert (Hr : (room (ostream_new 1) < N.of_nat (length [x00; x01]))%N) by reflexivity.
  split; [reflexivity|]. split; [exact Hr|].
  exact (proj1 (proj1 (proj2 (write_returns_iff (ostream_new 1) [x00; x01] eq_refl)) Hr)).
Defined.

Lemma pad_writes_zeros_witness :
  good (ostream_new 2) = true /\
  written (pad (ostream_new 2) 5) = [x00; x00] /\ bad (pad (ostream_new 2) 5) = true.
Proof.
  split; [reflexivity|].
  destruct (pad_writes_zeros (ostream_new 2) 5 eq_refl) as (Hw & _ & Hb).
  split; [exact Hw | exact Hb].
Defined.

Lemma pad_failure_caught_by_write_witness :
  good (ostream_new 2) = true /\ (room (ostream_new 2) < N.of_nat 5)%N /\
  write (pad (ostream_new 2) 5) [] = Abort (WriteFailed 0).
Proof.
  assert (Hr : (room (ostream_new 2) < N.of_nat 5)%N) by reflexivity.
  split; [reflexivity|]. split; [exact Hr|].
  exact (proj1 (pad_failure_caught_by_write (ostream_new 2) 5 [] eq_refl Hr)).
Defined.

Lemma writeEntries_returns_iff_witness :
  @headers_fit elf64 /\ object_fits ex_entries /\ good (ostream_new 496) = true /\
  Z.of_N (room (ostream_new 496)) < @object_size elf64 ex_entries /\
  exists n, @writeEntries elf64 (ostream_new 496) ex_entries = Abort (WriteFailed n).
Proof.
  assert (Hr : Z.of_N (room (ostream_new 496)) < @object_size elf64 ex_entries)
    by (vm_compute; reflexivity).
  split; [exact elf64_headers_fit|]. split; [exact ex_entries_fit|].
  split; [reflexivity|]. split; [exact Hr|].
  destruct (proj2 (proj2 (@writeEntries_returns_iff elf64 ex_entries (ostream_new 496)
                            elf64_headers_fit ex_entries_fit eq_refl)) Hr) as (n & H & _).
  exists n. exact H.
Defined.

Lemma writeEntries_on_failed_stream_witness :
  let os := mkOstream [] 10000 false true in
  @headers_fit elf64 /\ object_fits ex_entries /\
  badbit os = false /\ failbit os = true /\
  @writeEntries elf64 os ex_entries = Ok os.
Proof.
  intros os. split; [exact elf64_headers_fit|]. split; [exact ex_entries_fit|].
  split; [reflexivity|]. split; [reflexivity|].
  exact (@writeEntries_on_failed_stream elf64 ex_entries os
           elf64_headers_fit ex_entries_fit eq_refl eq_refl).
Defined.
